(** * Memory service of Avatar_EDU: insight extraction and compression

    A shallow embedding of [app/services/memory_service.py] (class
    [MemoryService]) and of the part of [app/api/openai_client.py]
    ([OpenAIClient.generate_content]) that the compression runs call.

    - Python dicts used as counters ([word_frequency], ...) keep insertion
      order; they are modelled as association lists in first-insertion order.
    - The ORM rows ([*MemoryInsight], [StudentMemoryBoard]) are records; the
      database is a committed [State] plus the pending writes of the
      SQLAlchemy session, made visible only by [commit].
    - [datetime.utcnow()] is an explicit clock argument [now : nat].
    - Numeric scores are integers; averages are exact rationals. *)

From Stdlib Require Import QArith Qreduction Ascii.
From stdpp Require Import base list strings gmap pretty.

Open Scope string_scope.

(* ================================================================= *)
(** ** Python string helpers *)

Definition ascii_lower (c : ascii) : ascii :=
  let n := Ascii.nat_of_ascii c in
  if (65 <=? n)%nat && (n <=? 90)%nat then Ascii.ascii_of_nat (n + 32) else c.

(** [str.lower()] on ASCII text (non-ASCII letters are left unchanged,
    where Python would lower them). *)
Fixpoint lower (s : string) : string :=
  match s with
  | EmptyString => EmptyString
  | String c s' => String (ascii_lower c) (lower s')
  end.

(** The ASCII whitespace characters only ([str.strip()] also removes
    Unicode whitespace). *)
Definition is_space (c : ascii) : bool :=
  bool_decide (c = " "%char) || bool_decide (c = "009"%char) ||
  bool_decide (c = "010"%char) || bool_decide (c = "011"%char) ||
  bool_decide (c = "012"%char) || bool_decide (c = "013"%char).

Fixpoint lstrip (s : string) : string :=
  match s with
  | EmptyString => EmptyString
  | String c s' => if is_space c then lstrip s' else s
  end.

Fixpoint rev_string (s : string) (acc : string) : string :=
  match s with
  | EmptyString => acc
  | String c s' => rev_string s' (String c acc)
  end.

(** [str.strip()] *)
Definition strip (s : string) : string :=
  rev_string (lstrip (rev_string (lstrip s) EmptyString)) EmptyString.

(* ================================================================= *)
(** ** Frequency aggregation (the dict-counting idiom of every [compress_*]) *)

(** A mistake record of an insight, e.g. [{"word": w, "accuracy": a}] or
    [{"type": t, "original": o}]: its grouping key (after the module's own
    [.get(..)] default and [.lower()]), its numeric score if the module
    averages one ([.get('accuracy', 0)]), and an example text. *)
Record Obs := mkObs { o_key : string; o_score : Z; o_example : string }.

Section Grouping.
Context {A : Type}.

(** [if k not in d: d[k] = []; d[k].append(x)] *)
Fixpoint group_add (k : string) (x : A) (g : list (string * list A))
  : list (string * list A) :=
  match g with
  | [] => [(k, [x])]
  | (k', xs) :: g' =>
      if bool_decide (k = k') then (k', app xs [x]) :: g'
      else (k', xs) :: group_add k x g'
  end.

(** The loop [for x in all_xs: k = key(x); if k: d[k] ...]; with
    [skip_empty = false] the [if k:] guard is absent in the source. *)
Definition group_by (skip_empty : bool) (key : A -> string) (xs : list A)
  : list (string * list A) :=
  fold_left (fun g x =>
    if skip_empty && bool_decide (key x = "") then g
    else group_add (key x) x g) xs [].
End Grouping.

(** One element of a chronic list: [{"word"/"skill"/...: key,
    "frequency": n, "avg_accuracy": a, "priority": p}]. *)
Record Entry := mkEntry {
  e_key : string;
  e_frequency : nat;
  e_avg : option Q;
  e_priority : option string
}.

(** [sum(xs) / len(xs)] *)
Definition mean (zs : list Z) : Q :=
  Qred (inject_Z (fold_right Z.add 0%Z zs) / inject_Z (Z.of_nat (length zs))).

(** ["high" if count >= high_at else "medium"] *)
Definition priority_of (high_at n : nat) : string :=
  if bool_decide (high_at <= n) then "high" else "medium".

(** The list comprehension
    [[{key, "frequency": len(xs), "avg_accuracy": mean, "priority": ...}
      for k, xs in d.items() if len(xs) >= min_freq]].
    [scored] says whether an average is reported, [high_at] is the
    priority threshold ([None] for lists without a priority field). *)
Definition chronic (min_freq : nat) (high_at : option nat) (scored : bool)
    (g : list (string * list Obs)) : list Entry :=
  map (fun kx => mkEntry kx.1 (length kx.2)
                   (if scored then Some (mean (map o_score kx.2)) else None)
                   (option_map (fun h => priority_of h (length kx.2)) high_at))
      (filter (fun kx => bool_decide (min_freq <= length kx.2)) g).

(** The full aggregator: group a flat list of records, then build entries. *)
Definition aggregate (key : Obs -> string) (skip_empty : bool) (min_freq : nat)
    (high_at : option nat) (scored : bool) (xs : list Obs) : list Entry :=
  chronic min_freq high_at scored (group_by skip_empty key xs).

(** A list of plain strings ([question_types_struggled], [fluency_problems],
    ...) counted as records without score. *)
Definition obs_of_string (s : string) : Obs := mkObs s 0 "".

(** [sorted(l, key=lambda x: x['frequency'], reverse=True)]: stable. *)
Fixpoint insert_desc (e : Entry) (l : list Entry) : list Entry :=
  match l with
  | [] => [e]
  | e' :: l' =>
      if bool_decide (e_frequency e <= e_frequency e') then e' :: insert_desc e l'
      else e :: l
  end.

Definition sort_by_frequency_desc (l : list Entry) : list Entry :=
  fold_left (fun acc e => insert_desc e acc) l [].

(** [l[:10]] *)
Definition top10 (l : list Entry) : list Entry := firstn 10 l.

(* ================================================================= *)
(** ** Insights (one table per module, [app/models/memory.py]) *)

Inductive Module := Reading | Listening | Speaking | Writing | Conversation.

#[global] Instance Module_eq_dec : EqDecision Module.
Proof. solve_decision. Defined.

(** The observation fields each [compress_*] reads. *)
Record ReadingObs := mkReadingObs {
  r_vocabulary_mistakes : list Obs;        (* key: "word" *)
  r_question_types_struggled : list string;
  r_reading_speed_issue : bool;
  r_completion_rate : Z                    (* a Float column, compared with 80 *)
}.

Record ListeningObs := mkListeningObs {
  l_question_types_struggled : list string;
  l_audio_speed_issue : bool
}.

Record SpeakingObs := mkSpeakingObs {
  s_mispronounced_words : list Obs;        (* key: "word", score: "accuracy" *)
  s_phoneme_errors : list Obs;             (* key: "phoneme", score: "accuracy" *)
  s_fluency_problems : list string
}.

Record WritingObs := mkWritingObs {
  w_grammar_errors : list Obs;             (* key: "type" (default 'unknown') *)
  w_style_issues : list string;            (* "issue" *)
  w_vocabulary_issues : list string;       (* "issue" *)
  w_content_weaknesses : list string;      (* "area" *)
  w_overall_score : Z
}.

Record ConversationObs := mkConversationObs {
  c_grammar_errors : list Obs;             (* key: "type" (default 'unknown') *)
  c_vocabulary_gaps : list Obs;            (* key: "word" *)
  c_fluency_issues : list string;
  c_topic_struggles : list string;
  c_mispronounced_words : list Obs;        (* key: "word", score: "accuracy" *)
  c_phoneme_errors : list Obs;             (* key: "phoneme", score: "accuracy" *)
  c_total_words : Z
}.

Inductive InsightData :=
  | RD (o : ReadingObs)
  | LD (o : ListeningObs)
  | SD (o : SpeakingObs)
  | WD (o : WritingObs)
  | CD (o : ConversationObs).

Definition module_of (d : InsightData) : Module :=
  match d with
  | RD _ => Reading | LD _ => Listening | SD _ => Speaking
  | WD _ => Writing | CD _ => Conversation
  end.

(** A row of one of the five [*MemoryInsight] tables. *)
Record Insight := mkInsight {
  i_id : nat;
  i_student : nat;
  i_created_at : nat;
  i_data : InsightData;
  i_is_compressed : bool;
  i_compressed_at : option nat
}.

Definition reading_obs (d : InsightData) := match d with RD o => Some o | _ => None end.
Definition listening_obs (d : InsightData) := match d with LD o => Some o | _ => None end.
Definition speaking_obs (d : InsightData) := match d with SD o => Some o | _ => None end.
Definition writing_obs (d : InsightData) := match d with WD o => Some o | _ => None end.
Definition conversation_obs (d : InsightData) := match d with CD o => Some o | _ => None end.

(* ================================================================= *)
(** ** Compressed payloads (the [compressed_memory] dicts) *)

(** The module-specific part of [compressed_memory]. The "examples",
    "corrections" and "contexts" sub-lists of some entries are not kept. *)
Inductive Body :=
  | BReading (vocabulary_gaps comprehension_weaknesses : list Entry)
             (reading_speed_issue completion_issue : bool)
  | BListening (comprehension_weaknesses : list Entry) (audio_speed_issue : bool)
  | BSpeaking (chronic_pronunciation_errors problem_phonemes fluency_patterns : list Entry)
  | BWriting (chronic_grammar_errors recurring_style_issues vocabulary_weaknesses
              content_patterns : list Entry) (average_score : Q)
  | BConversation (chronic_grammar_errors vocabulary_gaps fluency_patterns
                   topic_struggles chronic_mispronunciations problem_phonemes : list Entry)
                  (avg_words_per_session : Q).

Record Payload := mkPayload {
  p_body : Body;
  p_total_sessions_analyzed : nat;
  p_last_compressed_at : nat;
  p_summary : option string
}.

(** [x > len(insights) / 2] *)
Definition more_than_half (x n : nat) : bool := bool_decide (n < 2 * x).

Definition count_true (bs : list bool) : nat := length (filter (fun b => b = true) bs).

Definition obs_of_strings (xs : list string) : list Obs := map obs_of_string xs.

(** [compress_reading_memory], lines building [compressed_memory]. *)
Definition reading_body (os : list ReadingObs) : Body :=
  let chronic_vocabulary_gaps :=
    aggregate o_key true 2 (Some 3) false (concat (map r_vocabulary_mistakes os)) in
  let comprehension_weaknesses :=
    aggregate o_key false 0 (Some 3) false (obs_of_strings (concat (map r_question_types_struggled os))) in
  BReading (top10 chronic_vocabulary_gaps) comprehension_weaknesses
    (more_than_half (count_true (map r_reading_speed_issue os)) (length os))
    (more_than_half (count_true (map (fun o => bool_decide (r_completion_rate o < 80)%Z) os)) (length os)).

(** [compress_listening_memory] *)
Definition listening_body (os : list ListeningObs) : Body :=
  BListening
    (aggregate o_key false 0 (Some 3) false (obs_of_strings (concat (map l_question_types_struggled os))))
    (more_than_half (count_true (map l_audio_speed_issue os)) (length os)).

(** [compress_speaking_memory]: [word = word_data.get('word', '').lower()]. *)
Definition speaking_chronic_words (os : list SpeakingObs) : list Entry :=
  aggregate (fun o => lower (o_key o)) true 2 (Some 3) true (concat (map s_mispronounced_words os)).

Definition speaking_body (os : list SpeakingObs) : Body :=
  BSpeaking
    (top10 (speaking_chronic_words os))
    (top10 (aggregate o_key true 2 (Some 3) true (concat (map s_phoneme_errors os))))
    (aggregate o_key false 2 None false (obs_of_strings (concat (map s_fluency_problems os)))).

(** [sum(scores) / len(scores) if scores else 0] over the non-zero scores. *)
Definition mean_or_zero (zs : list Z) : Q :=
  match zs with [] => 0%Q | _ => mean zs end.

(** [compress_writing_memory] ([round(avg_score, 1)] is not modelled). *)
Definition writing_body (os : list WritingObs) : Body :=
  BWriting
    (top10 (sort_by_frequency_desc (aggregate o_key true 2 (Some 3) false (concat (map w_grammar_errors os)))))
    (top10 (sort_by_frequency_desc (aggregate o_key true 2 (Some 3) false (obs_of_strings (concat (map w_style_issues os))))))
    (top10 (aggregate o_key true 2 (Some 3) false (obs_of_strings (concat (map w_vocabulary_issues os)))))
    (top10 (aggregate o_key true 2 (Some 3) false (obs_of_strings (concat (map w_content_weaknesses os)))))
    (mean_or_zero (filter (fun z => z <> 0%Z) (map w_overall_score os))).

(** [compress_conversation_memory] ([round(.., 1)] is not modelled). *)
Definition conversation_body (os : list ConversationObs) : Body :=
  BConversation
    (top10 (sort_by_frequency_desc (aggregate o_key true 2 (Some 3) false (concat (map c_grammar_errors os)))))
    (top10 (sort_by_frequency_desc (aggregate o_key true 1 (Some 2) false (concat (map c_vocabulary_gaps os)))))
    (top10 (aggregate o_key false 2 (Some 3) false (obs_of_strings (concat (map c_fluency_issues os)))))
    (top10 (aggregate o_key false 1 (Some 2) false (obs_of_strings (concat (map c_topic_struggles os)))))
    (top10 (sort_by_frequency_desc (aggregate (fun o => lower (o_key o)) true 1 (Some 2) true (concat (map c_mispronounced_words os)))))
    (top10 (sort_by_frequency_desc (aggregate o_key true 1 (Some 2) true (concat (map c_phoneme_errors os)))))
    (mean_or_zero (map c_total_words os)).

Definition build_body (m : Module) (ds : list InsightData) : Body :=
  match m with
  | Reading => reading_body (omap reading_obs ds)
  | Listening => listening_body (omap listening_obs ds)
  | Speaking => speaking_body (omap speaking_obs ds)
  | Writing => writing_body (omap writing_obs ds)
  | Conversation => conversation_body (omap conversation_obs ds)
  end.

(* ================================================================= *)
(** ** The summarizer call ([use_ai=True] branch) *)

(** What [OpenAIClient.generate_content] can return to the caller: a dict
    with a "content" string, another dict (e.g. the error dict
    [{"error": ..., "details": ...}]), a string, or any other JSON value. *)
Inductive PyResp :=
  | RDictContent (c : string)
  | RDictOther
  | RStr (s : string)
  | ROther.

(** The outcome of the API request itself: no API key configured, the
    request raised (quota, timeout, network), or a reply whose text
    [json.loads] parses to [Some v] or rejects ([None]). *)
Inductive ApiOutcome :=
  | ApiNoKey
  | ApiRaise
  | ApiReply (content : string) (parsed : option PyResp).

(** [OpenAIClient.generate_content]: every exception is caught there and
    turned into [{"error": "Failed to generate content", ...}]. *)
Definition generate_content (o : ApiOutcome) : PyResp :=
  match o with
  | ApiNoKey => RDictOther
  | ApiRaise => RDictOther
  | ApiReply content None => RDictContent content
  | ApiReply _ (Some v) => v
  end.

(** The body of the [try:] in [compress_*]: either it raises before
    [generate_content] returns (import, client construction, [.strip()] on
    a non-string), or [generate_content] returns. *)
Inductive SummarizerCall :=
  | CallRaises
  | CallReturns (o : ApiOutcome).

(** The [except Exception] fallback of each module. *)
Definition fallback_summary (m : Module) (n : nat) : string :=
  "Analyzed " +:+ pretty n +:+ " sessions. " +:+
  match m with
  | Reading => "Focus on vocabulary reinforcement and comprehension practice."
  | Listening => "Focus on comprehension practice."
  | Speaking => "Focus on pronunciation practice."
  | Writing => "Focus on grammar and style improvement."
  | Conversation => "Focus on grammar and fluency improvement."
  end.

(** [compressed_memory["summary"]] after the [if use_ai:] block. *)
Definition summary_of (m : Module) (n : nat) (use_ai : bool) (call : SummarizerCall)
    : option string :=
  if use_ai then
    match call with
    | CallRaises => Some (fallback_summary m n)
    | CallReturns o =>
        match generate_content o with
        | RDictContent c => Some (strip c)
        | RStr s => Some (strip s)
        | _ => Some "Analysis complete"
        end
    end
  else None.

(* ================================================================= *)
(** ** The memory board ([StudentMemoryBoard]) and the database state *)

(** The three columns of one module: [<m>_memory] ([None] for [{}]),
    [<m>_last_compressed_at], [<m>_sessions_since_compression]. *)
Record Slot := mkSlot {
  sl_memory : option Payload;
  sl_last_compressed_at : option nat;
  sl_sessions_since_compression : nat
}.

Record Board := mkBoard {
  b_reading : Slot; b_listening : Slot; b_speaking : Slot;
  b_writing : Slot; b_conversation : Slot
}.

Definition empty_slot : Slot := mkSlot None None 0.

(** The row created by [get_or_create_memory_board]. *)
Definition new_board : Board :=
  mkBoard empty_slot empty_slot empty_slot empty_slot empty_slot.

Definition slot (b : Board) (m : Module) : Slot :=
  match m with
  | Reading => b_reading b | Listening => b_listening b | Speaking => b_speaking b
  | Writing => b_writing b | Conversation => b_conversation b
  end.

Definition set_slot (b : Board) (m : Module) (s : Slot) : Board :=
  match m with
  | Reading => mkBoard s (b_listening b) (b_speaking b) (b_writing b) (b_conversation b)
  | Listening => mkBoard (b_reading b) s (b_speaking b) (b_writing b) (b_conversation b)
  | Speaking => mkBoard (b_reading b) (b_listening b) s (b_writing b) (b_conversation b)
  | Writing => mkBoard (b_reading b) (b_listening b) (b_speaking b) s (b_conversation b)
  | Conversation => mkBoard (b_reading b) (b_listening b) (b_speaking b) (b_writing b) s
  end.

(** Committed database contents: the five insight tables (one list, each
    row tagged by its data) and the memory boards keyed by [student_id]. *)
Record State := mkState {
  st_insights : list Insight;
  st_boards : gmap nat Board
}.

(** Assignments to the ORM objects, pending in the session until commit. *)
Inductive Action :=
  | ACreateBoard (s : nat)                       (* db.session.add(StudentMemoryBoard(...)) *)
  | ASetMemory (s : nat) (m : Module) (p : option Payload)  (* board.<m>_memory = ... *)
  | ASetLastCompressed (s : nat) (m : Module) (t : nat)      (* board.<m>_last_compressed_at = ... *)
  | ASetCounter (s : nat) (m : Module) (n : nat)             (* board.<m>_sessions_since_compression = ... *)
  | AAddInsight (i : Insight)                    (* db.session.add(insight) *)
  | AMarkCompressed (m : Module) (id : nat) (t : nat)
      (* insight.is_compressed = True; insight.compressed_at = t, for the row
         [id] of the table of module [m] *)
  | ACommit.                                     (* db.session.commit() *)

Definition alter_slot (s : nat) (m : Module) (f : Slot -> Slot) (st : State) : State :=
  mkState (st_insights st) (alter (fun b => set_slot b m (f (slot b m))) s (st_boards st)).

Definition mark_compressed (m : Module) (id t : nat) (i : Insight) : Insight :=
  if bool_decide (module_of (i_data i) = m) && bool_decide (i_id i = id)
  then mkInsight (i_id i) (i_student i) (i_created_at i) (i_data i) true (Some t)
  else i.

(** The effect of one written action once it reaches the database. *)
Definition apply_action (st : State) (a : Action) : State :=
  match a with
  | ACreateBoard s => mkState (st_insights st) (<[s := new_board]> (st_boards st))
  | ASetMemory s m p =>
      alter_slot s m (fun sl => mkSlot p (sl_last_compressed_at sl) (sl_sessions_since_compression sl)) st
  | ASetLastCompressed s m t =>
      alter_slot s m (fun sl => mkSlot (sl_memory sl) (Some t) (sl_sessions_since_compression sl)) st
  | ASetCounter s m n =>
      alter_slot s m (fun sl => mkSlot (sl_memory sl) (sl_last_compressed_at sl) n) st
  | AAddInsight i => mkState (app (st_insights st) [i]) (st_boards st)
  | AMarkCompressed m id t => mkState (map (mark_compressed m id t) (st_insights st)) (st_boards st)
  | ACommit => st
  end.

(** The database seen through one SQLAlchemy session. *)
Record Db := mkDb { db_committed : State; db_pending : list Action }.

Definition db_step (d : Db) (a : Action) : Db :=
  match a with
  | ACommit => mkDb (fold_left apply_action (db_pending d) (db_committed d)) []
  | _ => mkDb (db_committed d) (app (db_pending d) [a])
  end.

Definition run_db (d : Db) (acts : list Action) : Db := fold_left db_step acts d.

(** The committed state after running [acts] from [st] with nothing pending. *)
Definition exec (st : State) (acts : list Action) : State :=
  db_committed (run_db (mkDb st []) acts).

(* ================================================================= *)
(** ** [MemoryService] operations *)

(** [COMPRESSION_THRESHOLD = 5] *)
Definition COMPRESSION_THRESHOLD : nat := 5.

(** [get_or_create_memory_board]: the board, and the writes it makes. *)
Definition get_or_create_memory_board (st : State) (s : nat) : Board * list Action :=
  match st_boards st !! s with
  | Some b => (b, [])
  | None => (new_board, [ACreateBoard s; ACommit])
  end.

(** [<M>MemoryInsight.query.filter_by(student_id=s, is_compressed=False)] *)
Definition is_uncompressed_of (s : nat) (m : Module) (i : Insight) : bool :=
  bool_decide (i_student i = s) && bool_decide (module_of (i_data i) = m) &&
  negb (i_is_compressed i).

Definition uncompressed (st : State) (s : nat) (m : Module) : list Insight :=
  filter (fun i => is_uncompressed_of s m i = true) (st_insights st).

Fixpoint insert_created_desc (i : Insight) (l : list Insight) : list Insight :=
  match l with
  | [] => [i]
  | j :: l' =>
      if bool_decide (i_created_at i <= i_created_at j) then j :: insert_created_desc i l'
      else i :: l
  end.

(** [... .order_by(<M>MemoryInsight.created_at.desc()).all()] *)
Definition query_uncompressed (st : State) (s : nat) (m : Module) : list Insight :=
  fold_left (fun acc i => insert_created_desc i acc) (uncompressed st s m) [].

(** [should_compress_<m>_memory]: the answer and the writes of the
    [get_or_create_memory_board] call it makes first. *)
Definition should_compress (st : State) (s : nat) (m : Module) : bool * list Action :=
  let '(_, acts) := get_or_create_memory_board st s in
  (bool_decide (COMPRESSION_THRESHOLD <= length (uncompressed st s m)), acts).

(** [get_<m>_memory]: [memory_board.<m>_memory or {}]. *)
Definition get_memory (st : State) (s : nat) (m : Module) : option Payload * list Action :=
  let '(b, acts) := get_or_create_memory_board st s in
  (sl_memory (slot b m), acts).

Definition fresh_id (st : State) (m : Module) : nat :=
  S (foldr Nat.max 0 (map i_id (filter (fun i => module_of (i_data i) = m) (st_insights st)))).

Definition counter_of (st : State) (s : nat) (m : Module) : nat :=
  match st_boards st !! s with
  | Some b => sl_sessions_since_compression (slot b m)
  | None => 0
  end.

(** [extract_<m>_session_insights]. [sess] is the insight data the method
    computes from the finished session ([None]: the session row does not
    exist and [ValueError] is raised before any write). The mapping from
    the session's raw records to the observation fields is not modelled.
    Returns the new row and the writes: add + commit, then
    [get_or_create_memory_board], then [counter += 1] + commit. *)
Definition extract_insights (st : State) (s : nat) (sess : option InsightData) (now : nat)
    : option (Insight * list Action) :=
  match sess with
  | None => None
  | Some d =>
      let m := module_of d in
      let i := mkInsight (fresh_id st m) s now d false None in
      let '(_, create) := get_or_create_memory_board st s in
      Some (i, app [AAddInsight i; ACommit]
               (app create [ASetCounter s m (S (counter_of st s m)); ACommit]))
  end.

(** [compress_<m>_memory(student_id, use_ai)]: the returned dict
    ([None] for [{}]) and the writes. [call] is what the summarizer does
    if it is called; [now] is [datetime.utcnow()]. *)
Definition compress_plan (st : State) (s : nat) (m : Module) (use_ai : bool)
    (call : SummarizerCall) (now : nat) : option Payload * list Action :=
  let insights := query_uncompressed st s m in
  match insights with
  | [] => (None, [])
  | _ :: _ =>
      let n := length insights in
      let p := mkPayload (build_body m (map i_data insights)) n now
                         (summary_of m n use_ai call) in
      let '(_, create) := get_or_create_memory_board st s in
      (Some p,
       app create
         (app [ASetMemory s m (Some p); ASetLastCompressed s m now; ASetCounter s m 0]
              (app (map (fun i => AMarkCompressed m (i_id i) now) insights) [ACommit])))
  end.

Definition compress (st : State) (s : nat) (m : Module) (use_ai : bool)
    (call : SummarizerCall) (now : nat) : option Payload * State :=
  let '(r, acts) := compress_plan st s m use_ai call now in (r, exec st acts).

(** The dict returned by [get_adaptive_question_focus]; [h_memory_summary]
    is [None] when the key is absent, [Some None] for a null summary. *)
Record Hints := mkHints {
  h_focus_topics : list string;
  h_challenge_words : list string;
  h_question_types_priority : list string;
  h_difficulty_level : string;
  h_memory_summary : option (option string)
}.

Definition default_hints : Hints :=
  mkHints [] [] ["inference"; "main_idea"; "detail"; "vocabulary"] "intermediate" None.

(** [memory.get("vocabulary_gaps", [])] *)
Definition vocabulary_gaps_of (p : Payload) : list Entry :=
  match p_body p with
  | BReading v _ _ _ => v
  | BConversation _ v _ _ _ _ _ => v
  | _ => []
  end.

(** [memory.get("comprehension_weaknesses", [])] *)
Definition comprehension_weaknesses_of (p : Payload) : list Entry :=
  match p_body p with
  | BReading _ c _ _ => c
  | BListening c _ => c
  | _ => []
  end.

Definition is_high_or_medium (e : Entry) : bool :=
  bool_decide (e_priority e = Some "high") || bool_decide (e_priority e = Some "medium").

Definition is_high (e : Entry) : bool := bool_decide (e_priority e = Some "high").

(** [get_adaptive_question_focus]: the hints and the writes of the
    [get_reading_memory] call it makes. *)
Definition get_adaptive_question_focus (st : State) (s : nat) : Hints * list Action :=
  let '(memory, acts) := get_memory st s Reading in
  match memory with
  | None => (default_hints, acts)
  | Some p =>
      let challenge_words :=
        firstn 5 (map e_key (filter (fun e => is_high_or_medium e = true) (vocabulary_gaps_of p))) in
      let qtp := map e_key (filter (fun e => is_high e = true) (comprehension_weaknesses_of p)) in
      let qtp := match qtp with [] => ["inference"; "main_idea"; "detail"] | _ => qtp end in
      (mkHints [] challenge_words qtp
         (if bool_decide (length (vocabulary_gaps_of p) < 3) then "advanced" else "intermediate")
         (Some (p_summary p)),
       acts)
  end.

(* ================================================================= *)
(** ** Sequences of service calls *)

Inductive Op :=
  | OExtract (s : nat) (sess : option InsightData) (now : nat)
  | OShouldCompress (s : nat) (m : Module)
  | OCompress (s : nat) (m : Module) (use_ai : bool) (call : SummarizerCall) (now : nat)
  | OGetMemory (s : nat) (m : Module)
  | OGetHints (s : nat).

(** The writes one call makes (a call that raises makes none). *)
Definition op_actions (st : State) (op : Op) : list Action :=
  match op with
  | OExtract s sess now =>
      match extract_insights st s sess now with Some (_, acts) => acts | None => [] end
  | OShouldCompress s m => (should_compress st s m).2
  | OCompress s m use_ai call now => (compress_plan st s m use_ai call now).2
  | OGetMemory s m => (get_memory st s m).2
  | OGetHints s => (get_adaptive_question_focus st s).2
  end.

Definition op_step (st : State) (op : Op) : State := exec st (op_actions st op).

Definition run_ops (st : State) (ops : list Op) : State := fold_left op_step ops st.

(* ================================================================= *)
(** * Properties *)

(** ** Executing the writes of a session *)

Lemma apply_commit_end (l : list Action) (st : State) :
  fold_left apply_action (app l [ACommit]) st = fold_left apply_action l st.
Proof. by rewrite fold_left_app. Qed.

Lemma run_db_fold (acts : list Action) (st : State) (p : list Action) :
  fold_left apply_action (db_pending (run_db (mkDb st p) acts))
            (db_committed (run_db (mkDb st p) acts))
  = fold_left apply_action (app p acts) st.
Proof.
  revert st p. induction acts as [|a acts IH]; intros st p; simpl.
  - by rewrite app_nil_r.
  - unfold run_db in *. simpl. destruct a; simpl; rewrite IH; simpl;
      rewrite ?fold_left_app; simpl; try reflexivity.
    all: by rewrite <- app_assoc.
Qed.

Lemma run_db_commit_pending (d : Db) (acts : list Action) :
  db_pending (run_db d (app acts [ACommit])) = [].
Proof. unfold run_db. by rewrite fold_left_app. Qed.

(** A list of writes that ends with a commit reaches the database whole. *)
Lemma exec_commit (st : State) (acts : list Action) :
  exec st (app acts [ACommit]) = fold_left apply_action acts st.
Proof.
  unfold exec.
  pose proof (run_db_fold (app acts [ACommit]) st []) as H.
  rewrite run_db_commit_pending in H. simpl in H.
  rewrite H. apply apply_commit_end.
Qed.

Lemma exec_nil (st : State) : exec st [] = st.
Proof. reflexivity. Qed.

(** The committed state after any prefix of a run is the effect of a
    prefix of the issued writes. *)
Lemma run_db_committed_prefix (acts : list Action) (st : State) (p : list Action) :
  exists l, prefix l (app p acts) /\
    db_committed (run_db (mkDb st p) acts) = fold_left apply_action l st.
Proof.
  revert st p. induction acts as [|a acts IH]; intros st p.
  - exists []. split; [apply prefix_nil | reflexivity].
  - unfold run_db in *. simpl. destruct a eqn:Ha; simpl;
      [ .. | destruct (IH (fold_left apply_action p st) []) as [l [Hl Heq]];
             exists (app p (ACommit :: l)); split;
             [ apply prefix_app, prefix_cons; exact Hl
             | rewrite Heq, fold_left_app; reflexivity ] ];
      (destruct (IH st (app p [a])) as [l [Hl Heq]];
       exists l; split;
       [ rewrite <- app_assoc in Hl; subst a; exact Hl | subst a; exact Heq ]).
Qed.

(** Writes to the boards leave the insight tables alone. *)
Lemma alter_slot_insights (s : nat) (m : Module) (f : Slot -> Slot) (st : State) :
  st_insights (alter_slot s m f st) = st_insights st.
Proof. reflexivity. Qed.

Lemma slot_set_slot_eq (b : Board) (m : Module) (sl : Slot) :
  slot (set_slot b m sl) m = sl.
Proof. by destruct m. Qed.

Lemma slot_set_slot_ne (b : Board) (m m' : Module) (sl : Slot) :
  m <> m' -> slot (set_slot b m sl) m' = slot b m'.
Proof. intros Hne. destruct m, m'; simpl; congruence. Qed.

(** ** Counting uncompressed insights *)

Lemma uncompressed_app_new (st : State) (s : nat) (m : Module) (i : Insight) :
  i_student i = s -> module_of (i_data i) = m -> i_is_compressed i = false ->
  uncompressed (mkState (app (st_insights st) [i]) (st_boards st)) s m
  = app (uncompressed st s m) [i].
Proof.
  intros Hs Hm Hc. unfold uncompressed. simpl. rewrite filter_app. f_equal.
  rewrite filter_cons_True; [reflexivity|].
  unfold is_uncompressed_of. rewrite Hs, Hm, Hc.
  by rewrite !bool_decide_eq_true_2.
Qed.

Lemma uncompressed_boards (ins : list Insight) (b1 b2 : gmap nat Board) (s : nat) (m : Module) :
  uncompressed (mkState ins b1) s m = uncompressed (mkState ins b2) s m.
Proof. reflexivity. Qed.

Lemma extract_uncompressed (st : State) (s : nat) (d : InsightData) (now : nat) :
  length (uncompressed (op_step st (OExtract s (Some d) now)) s (module_of d))
  = S (length (uncompressed st s (module_of d))).
Proof.
  unfold op_step, op_actions, extract_insights, get_or_create_memory_board.
  destruct (st_boards st !! s) as [b|] eqn:Hb; simpl;
    (rewrite (app_assoc _ [ASetCounter _ _ _]) || idtac).
  - change [AAddInsight ?i; ACommit; ASetCounter ?s ?m ?n; ACommit]
      with (app [AAddInsight i; ACommit; ASetCounter s m n] [ACommit]).
    rewrite exec_commit. simpl. unfold alter_slot. simpl.
    rewrite (uncompressed_boards _ _ (st_boards st)).
    rewrite (uncompressed_app_new st s (module_of d)); try reflexivity.
    by rewrite length_app, Nat.add_comm.
  - change [AAddInsight ?i; ACommit; ACreateBoard ?s; ACommit; ASetCounter ?s ?m ?n; ACommit]
      with (app [AAddInsight i; ACommit; ACreateBoard s; ACommit; ASetCounter s m n] [ACommit]).
    rewrite exec_commit. simpl. unfold alter_slot. simpl.
    rewrite (uncompressed_boards _ _ (st_boards st)).
    rewrite (uncompressed_app_new st s (module_of d)); try reflexivity.
    by rewrite length_app, Nat.add_comm.
Qed.

Lemma run_extracts_uncompressed (st : State) (s : nat) (m : Module)
    (ds : list (InsightData * nat)) :
  Forall (fun dt => module_of dt.1 = m) ds ->
  length (uncompressed (run_ops st (map (fun dt => OExtract s (Some dt.1) dt.2) ds)) s m)
  = length ds + length (uncompressed st s m).
Proof.
  revert st. induction ds as [|[d t] ds IH]; intros st Hds; [reflexivity|].
  apply Forall_cons in Hds as [Hd Hrest]. simpl in Hd |- *.
  unfold run_ops in IH |- *. simpl. rewrite IH by exact Hrest.
  rewrite <- Hd, extract_uncompressed. lia.
Qed.

(** ** C2: the compression trigger *)

(** C2. [should_compress_<m>_memory] answers true iff the student has at
    least [COMPRESSION_THRESHOLD] = 5 uncompressed insights of the module;
    so, starting with none, it is true after exactly 5 extractions and
    false after 4. *)
Theorem should_compress_after_extractions (st : State) (s : nat) (m : Module)
    (ds : list (InsightData * nat))
    (Hnone : uncompressed st s m = [])
    (Hmod : Forall (fun dt => module_of dt.1 = m) ds) :
  (forall st' : State,
     (should_compress st' s m).1
     = bool_decide (COMPRESSION_THRESHOLD <= length (uncompressed st' s m))) /\
  (should_compress (run_ops st (map (fun dt => OExtract s (Some dt.1) dt.2) ds)) s m).1
  = bool_decide (COMPRESSION_THRESHOLD <= length ds) /\
  (length ds = 5 ->
   (should_compress (run_ops st (map (fun dt => OExtract s (Some dt.1) dt.2) ds)) s m).1 = true) /\
  (length ds = 4 ->
   (should_compress (run_ops st (map (fun dt => OExtract s (Some dt.1) dt.2) ds)) s m).1 = false).
Proof.
  assert (Hgen : forall st' : State,
     (should_compress st' s m).1
     = bool_decide (COMPRESSION_THRESHOLD <= length (uncompressed st' s m))).
  { intros st'. unfold should_compress, get_or_create_memory_board.
    by destruct (st_boards st' !! s). }
  assert (Hrun : (should_compress (run_ops st (map (fun dt => OExtract s (Some dt.1) dt.2) ds)) s m).1
                 = bool_decide (COMPRESSION_THRESHOLD <= length ds)).
  { rewrite Hgen, run_extracts_uncompressed by exact Hmod.
    by rewrite Hnone, Nat.add_0_r. }
  split; [exact Hgen|]. split; [exact Hrun|].
  split; intros Hlen; rewrite Hrun, Hlen; reflexivity.
Qed.

Definition empty_speaking : InsightData := SD (mkSpeakingObs [] [] []).

Lemma should_compress_after_extractions_witness :
  uncompressed (mkState [] ∅) 1 Speaking = [] /\
  (should_compress (run_ops (mkState [] ∅)
     (map (fun dt => OExtract 1 (Some dt.1) dt.2)
        [(empty_speaking, 1); (empty_speaking, 2); (empty_speaking, 3);
         (empty_speaking, 4); (empty_speaking, 5)])) 1 Speaking).1 = true.
Proof.
  split; [reflexivity|].
  apply (should_compress_after_extractions (mkState [] ∅) 1 Speaking
           [(empty_speaking, 1); (empty_speaking, 2); (empty_speaking, 3);
            (empty_speaking, 4); (empty_speaking, 5)]).
  - reflexivity.
  - repeat constructor.
  - reflexivity.
Defined.

(** ** The effect of a compression run *)

(** An insight row after [is_compressed = True; compressed_at = t]. *)
Definition marked (t : nat) (j : Insight) : Insight :=
  mkInsight (i_id j) (i_student j) (i_created_at j) (i_data j) true (Some t).

(** The rows of module [m] whose id is in [ids] marked, the others kept. *)
Definition mark_all (m : Module) (ids : list nat) (t : nat) (j : Insight) : Insight :=
  if bool_decide (module_of (i_data j) = m) && bool_decide (i_id j ∈ ids) then marked t j else j.

(** The board [get_or_create_memory_board] works on. *)
Definition board_view (st : State) (s : nat) : Board :=
  match st_boards st !! s with Some b => b | None => new_board end.

Lemma In_insert_created_desc (x i : Insight) (l : list Insight) :
  x ∈ insert_created_desc i l <-> x = i \/ x ∈ l.
Proof.
  induction l as [|j l IH]; simpl.
  - rewrite elem_of_cons. split; [intros [H|H]; [by left | by apply not_elem_of_nil in H] | ].
    intros [H|H]; [by left | by apply not_elem_of_nil in H].
  - case_bool_decide; rewrite !elem_of_cons; try rewrite IH; tauto.
Qed.

Lemma In_fold_insert (x : Insight) (l acc : list Insight) :
  x ∈ fold_left (fun acc i => insert_created_desc i acc) l acc <-> x ∈ l \/ x ∈ acc.
Proof.
  revert acc. induction l as [|i l IH]; intros acc; simpl.
  - rewrite elem_of_nil. tauto.
  - rewrite IH, In_insert_created_desc, elem_of_cons. tauto.
Qed.

Lemma In_query (st : State) (s : nat) (m : Module) (x : Insight) :
  x ∈ query_uncompressed st s m <-> x ∈ st_insights st /\ is_uncompressed_of s m x = true.
Proof.
  unfold query_uncompressed. rewrite In_fold_insert, elem_of_nil.
  unfold uncompressed. rewrite list_elem_of_filter. tauto.
Qed.

Lemma query_nil (st : State) (s : nat) (m : Module) :
  query_uncompressed st s m = [] <-> uncompressed st s m = [].
Proof.
  split; intros H.
  - destruct (uncompressed st s m) as [|x l] eqn:Hu; [reflexivity|].
    assert (Hx : x ∈ query_uncompressed st s m).
    { rewrite In_query. assert (Hx : x ∈ uncompressed st s m) by (rewrite Hu; left).
      unfold uncompressed in Hx. rewrite list_elem_of_filter in Hx. tauto. }
    rewrite H in Hx. by apply not_elem_of_nil in Hx.
  - unfold query_uncompressed. by rewrite H.
Qed.

Lemma fold_marks (m : Module) (t : nat) (l : list Insight) (st : State) :
  fold_left apply_action (map (fun i => AMarkCompressed m (i_id i) t) l) st
  = mkState (map (mark_all m (map i_id l) t) (st_insights st)) (st_boards st).
Proof.
  revert st. induction l as [|i l IH]; intros st; simpl.
  - destruct st as [ins bs]; simpl. f_equal.
    induction ins as [|j ins IHi]; [reflexivity|]. simpl. rewrite <- IHi. f_equal.
    unfold mark_all.
    rewrite (bool_decide_eq_false_2 (i_id j ∈ [])) by (apply not_elem_of_nil).
    by rewrite andb_false_r.
  - rewrite IH. simpl. f_equal. rewrite map_map. apply map_ext. intros j.
    unfold mark_all, mark_compressed, marked.
    destruct (bool_decide (module_of (i_data j) = m)) eqn:Hm; simpl.
    + destruct (bool_decide (i_id j = i_id i)) eqn:Hid; simpl.
      * apply bool_decide_eq_true in Hid. rewrite Hm. simpl.
        rewrite (bool_decide_eq_true_2 (i_id j ∈ i_id i :: map i_id l)) by (rewrite Hid; left).
        destruct (bool_decide (i_id j ∈ map i_id l)); reflexivity.
      * apply bool_decide_eq_false in Hid.
        rewrite Hm. simpl.
        assert (Hiff : i_id j ∈ i_id i :: map i_id l <-> i_id j ∈ map i_id l)
          by (rewrite elem_of_cons; tauto).
        destruct (bool_decide (i_id j ∈ map i_id l)) eqn:Hin.
        -- apply bool_decide_eq_true in Hin.
           by rewrite bool_decide_eq_true_2 by (apply Hiff; exact Hin).
        -- apply bool_decide_eq_false in Hin.
           rewrite bool_decide_eq_false_2; [reflexivity|]. rewrite Hiff. exact Hin.
    + rewrite Hm. reflexivity.
Qed.

Lemma alter_slot_lookup (s s' : nat) (m : Module) (f : Slot -> Slot) (st : State) :
  st_boards (alter_slot s m f st) !! s'
  = if decide (s = s') then (fun b => set_slot b m (f (slot b m))) <$> st_boards st !! s
    else st_boards st !! s'.
Proof.
  unfold alter_slot. simpl. destruct (decide (s = s')) as [Hs|Hs].
  - subst. by rewrite lookup_alter_eq.
  - by rewrite lookup_alter_ne.
Qed.

Lemma set_slot_slot_board (b : Board) (m : Module) (p : option Payload) (t n : nat) :
  let b1 := set_slot b m (mkSlot p (sl_last_compressed_at (slot b m)) (sl_sessions_since_compression (slot b m))) in
  let b2 := set_slot b1 m (mkSlot (sl_memory (slot b1 m)) (Some t) (sl_sessions_since_compression (slot b1 m))) in
  set_slot b2 m (mkSlot (sl_memory (slot b2 m)) (sl_last_compressed_at (slot b2 m)) n)
  = set_slot b m (mkSlot p (Some t) n).
Proof. by destruct m. Qed.

(** What one run of [compress_<m>_memory] does when there is something to
    compress: it returns the payload, marks exactly the consumed rows, and
    replaces the module's three columns of the student's board. *)
Lemma compress_effect (st : State) (s : nat) (m : Module) (use_ai : bool)
    (call : SummarizerCall) (now : nat) (x : Insight) (xs : list Insight) :
  query_uncompressed st s m = x :: xs ->
  (compress st s m use_ai call now).1
    = Some (mkPayload (build_body m (map i_data (x :: xs))) (length (x :: xs)) now
                      (summary_of m (length (x :: xs)) use_ai call)) /\
  st_insights (compress st s m use_ai call now).2
    = map (mark_all m (map i_id (x :: xs)) now) (st_insights st) /\
  st_boards (compress st s m use_ai call now).2
    = <[s := set_slot (board_view st s) m
               (mkSlot (Some (mkPayload (build_body m (map i_data (x :: xs))) (length (x :: xs)) now
                                        (summary_of m (length (x :: xs)) use_ai call)))
                       (Some now) 0)]> (st_boards st).
Proof.
  intros Hq. unfold compress, compress_plan. rewrite Hq.
  unfold get_or_create_memory_board, board_view.
  destruct (st_boards st !! s) as [b|] eqn:Hb; cbn [app];
    rewrite ?(app_assoc (map _ _) [ACommit]);
    (rewrite (app_comm_cons _ _ (ASetCounter s m 0)),
             (app_comm_cons _ _ (ASetLastCompressed s m now)),
             (app_comm_cons _ _ (ASetMemory s m _)) || idtac);
    cbn [fst snd].
  all: first [ rewrite exec_commit
             | rewrite (app_comm_cons _ _ ACommit), (app_comm_cons _ _ (ACreateBoard s)), exec_commit ].
  all: cbn [fold_left]; rewrite fold_marks; cbn [apply_action].
  all: unfold alter_slot; cbn [st_insights st_boards].
  all: split; [reflexivity|]; split; [reflexivity|].
  all: apply map_eq; intros s'.
  all: destruct (decide (s = s')) as [->|Hne];
         [ rewrite !lookup_alter_eq, lookup_insert_eq
         | rewrite !lookup_alter_ne, lookup_insert_ne by exact Hne ].
  - rewrite Hb. simpl. f_equal. apply set_slot_slot_board.
  - reflexivity.
  - rewrite lookup_insert_eq. simpl. f_equal. apply set_slot_slot_board.
  - rewrite lookup_insert_ne by exact Hne. reflexivity.
Qed.

Lemma compress_nothing (st : State) (s : nat) (m : Module) (use_ai : bool)
    (call : SummarizerCall) (now : nat) :
  query_uncompressed st s m = [] -> compress st s m use_ai call now = (None, st).
Proof. intros Hq. unfold compress, compress_plan. by rewrite Hq. Qed.

Lemma mark_all_data (m : Module) (ids : list nat) (t : nat) (j : Insight) :
  i_data (mark_all m ids t j) = i_data j.
Proof. unfold mark_all. by destruct (_ && _). Qed.

Lemma filter_nil_all_false {A} (P : A -> Prop) `{!forall x, Decision (P x)} (l : list A) :
  (forall x, x ∈ l -> ~ P x) -> filter P l = [].
Proof.
  induction l as [|y l IH]; intros Hall; [reflexivity|].
  rewrite filter_cons_False.
  - apply IH. intros x Hx. apply Hall. by right.
  - apply Hall. by left.
Qed.

(** After a run, no uncompressed insight of the module is left. *)
Lemma compress_exhausts (st : State) (s : nat) (m : Module) (use_ai : bool)
    (call : SummarizerCall) (now : nat) :
  uncompressed (compress st s m use_ai call now).2 s m = [].
Proof.
  destruct (query_uncompressed st s m) as [|x xs] eqn:Hq.
  - rewrite compress_nothing by exact Hq. simpl. by apply query_nil.
  - destruct (compress_effect st s m use_ai call now x xs Hq) as [_ [Hins _]].
    unfold uncompressed. rewrite Hins.
    apply filter_nil_all_false. intros j' Hj'.
    apply list_elem_of_fmap in Hj' as [j [-> Hj]].
    unfold mark_all.
    destruct (bool_decide (module_of (i_data j) = m) && bool_decide (i_id j ∈ map i_id (x :: xs))) eqn:Hsel.
    + unfold is_uncompressed_of, marked. simpl. rewrite andb_false_r. discriminate.
    + intros Hu. apply andb_false_iff in Hsel.
      assert (Hq' : j ∈ query_uncompressed st s m) by (apply In_query; split; assumption).
      rewrite Hq in Hq'.
      unfold is_uncompressed_of in Hu. apply andb_true_iff in Hu as [Hu _].
      apply andb_true_iff in Hu as [_ Hmod].
      destruct Hsel as [Hsel|Hsel]; [rewrite Hmod in Hsel; discriminate|].
      apply bool_decide_eq_false in Hsel. apply Hsel.
      apply list_elem_of_fmap. exists j. split; [reflexivity | exact Hq'].
Qed.

Lemma filter_module_mark_all (m m' : Module) (ids : list nat) (t : nat) (l : list Insight) :
  m' <> m ->
  filter (fun i => module_of (i_data i) = m') (map (mark_all m ids t) l)
  = filter (fun i => module_of (i_data i) = m') l.
Proof.
  intros Hne. induction l as [|j l IH]; [reflexivity|]. simpl.
  rewrite !filter_cons, mark_all_data, IH.
  destruct (decide (module_of (i_data j) = m')) as [Hm|Hm]; [|reflexivity].
  f_equal. unfold mark_all. rewrite bool_decide_eq_false_2; [reflexivity|].
  congruence.
Qed.

(** ** C6: nothing to compress *)

(** C6. With no uncompressed insight of the module, [compress_<m>_memory]
    returns [{}] and leaves the whole database (boards and insights) as it
    was; hence a second run right after a run, with no extraction in
    between, changes nothing and marks nothing again. *)
Theorem compress_noop_when_nothing_left (st : State) (s : nat) (m : Module)
    (use_ai use_ai' : bool) (call call' : SummarizerCall) (now now' : nat) :
  (uncompressed st s m = [] -> compress st s m use_ai call now = (None, st)) /\
  compress (compress st s m use_ai call now).2 s m use_ai' call' now'
  = (None, (compress st s m use_ai call now).2).
Proof.
  split.
  - intros Hnone. apply compress_nothing. by apply query_nil.
  - apply compress_nothing. apply query_nil. apply compress_exhausts.
Qed.

Lemma compress_noop_when_nothing_left_witness :
  uncompressed (mkState [] ∅) 3 Reading = [] /\
  compress (mkState [] ∅) 3 Reading true CallRaises 10 = (None, mkState [] ∅).
Proof.
  split; [reflexivity|].
  apply (proj1 (compress_noop_when_nothing_left (mkState [] ∅) 3 Reading true true
                  CallRaises CallRaises 10 10)).
  reflexivity.
Defined.

(** ** C10: a run touches only its own module *)

(** C10. [compress_<m>_memory] leaves the columns of every other module
    [m'] (payload, [last_compressed_at], counter) of every board as they
    were (a board created on the way has them empty, as
    [get_or_create_memory_board] would show them), and leaves every insight
    row of another module unchanged. *)
Theorem compress_frame (st : State) (s : nat) (m : Module) (use_ai : bool)
    (call : SummarizerCall) (now : nat) (m' : Module) (Hne : m' <> m) :
  (forall s' : nat,
     slot (board_view (compress st s m use_ai call now).2 s') m' = slot (board_view st s') m') /\
  filter (fun i => module_of (i_data i) = m') (st_insights (compress st s m use_ai call now).2)
  = filter (fun i => module_of (i_data i) = m') (st_insights st).
Proof.
  destruct (query_uncompressed st s m) as [|x xs] eqn:Hq.
  - rewrite compress_nothing by exact Hq. split; [reflexivity|reflexivity].
  - destruct (compress_effect st s m use_ai call now x xs Hq) as [_ [Hins Hbd]].
    split.
    + intros s'. unfold board_view at 1. rewrite Hbd.
      destruct (decide (s = s')) as [->|Hss].
      * rewrite lookup_insert_eq. by apply slot_set_slot_ne.
      * rewrite lookup_insert_ne by exact Hss. reflexivity.
    + rewrite Hins. by apply filter_module_mark_all.
Qed.

Lemma compress_frame_witness :
  Listening <> Speaking /\
  slot (board_view (compress (mkState [mkInsight 1 3 1 empty_speaking false None] ∅)
                      3 Speaking false CallRaises 10).2 3) Listening
  = slot (board_view (mkState [mkInsight 1 3 1 empty_speaking false None] ∅) 3) Listening.
Proof.
  split; [discriminate|].
  apply (compress_frame (mkState [mkInsight 1 3 1 empty_speaking false None] ∅)
           3 Speaking false CallRaises 10 Listening).
  discriminate.
Defined.

(** ** C4: a compression run reaches the database whole or not at all *)

Lemma run_db_no_commit (l : list Action) (st : State) (p : list Action) :
  Forall (fun a => a <> ACommit) l -> db_committed (run_db (mkDb st p) l) = st.
Proof.
  revert p. induction l as [|a l IH]; intros p Hl; [reflexivity|].
  apply Forall_cons in Hl as [Ha Hl]. unfold run_db in *. simpl.
  destruct a; try (apply IH; exact Hl). congruence.
Qed.

Lemma crash_before_commit (L : list Action) (k : nat) (st : State) :
  Forall (fun a => a <> ACommit) L -> k < length (app L [ACommit]) ->
  db_committed (run_db (mkDb st []) (firstn k (app L [ACommit]))) = st.
Proof.
  intros HL Hk. rewrite length_app in Hk. simpl in Hk.
  rewrite firstn_app. replace (k - length L) with 0 by lia. simpl. rewrite app_nil_r.
  apply run_db_no_commit. by apply Forall_take.
Qed.

Lemma compress_writes_no_commit (s : nat) (m : Module) (p : option Payload) (now : nat)
    (l : list Insight) :
  Forall (fun a => a <> ACommit)
    (app [ASetMemory s m p; ASetLastCompressed s m now; ASetCounter s m 0]
         (map (fun i => AMarkCompressed m (i_id i) now) l)).
Proof.
  apply Forall_app. split.
  - repeat constructor; discriminate.
  - apply Forall_forall. intros a Ha. apply list_elem_of_In, in_map_iff in Ha as [i [<- _]]. discriminate.
Qed.

Lemma compress_state_exec (st : State) (s : nat) (m : Module) (use_ai : bool)
    (call : SummarizerCall) (now : nat) :
  (compress st s m use_ai call now).2 = exec st (compress_plan st s m use_ai call now).2.
Proof. unfold compress. by destruct (compress_plan st s m use_ai call now). Qed.

Lemma compress_plan_shape (st : State) (s : nat) (m : Module) (use_ai : bool)
    (call : SummarizerCall) (now : nat) (x : Insight) (xs : list Insight) :
  query_uncompressed st s m = x :: xs ->
  exists W, Forall (fun a => a <> ACommit) W /\
    (compress_plan st s m use_ai call now).2
    = app (get_or_create_memory_board st s).2 (app W [ACommit]).
Proof.
  intros Hq. unfold compress_plan. rewrite Hq.
  eexists. split; [apply compress_writes_no_commit|].
  destruct (get_or_create_memory_board st s) as [b create]. cbn [snd].
  f_equal.
Qed.

Lemma run_db_create_board (st : State) (s : nat) (l : list Action) :
  run_db (mkDb st []) (ACreateBoard s :: ACommit :: l)
  = run_db (mkDb (apply_action st (ACreateBoard s)) []) l.
Proof. reflexivity. Qed.

(** C4. Whatever prefix of the writes of one [compress_<m>_memory] run has
    been issued when the run stops (a crash rolls back what is not
    committed), the committed database either shows every board as before
    (up to the empty board [get_or_create_memory_board] may have committed)
    and the insight rows untouched, or is exactly the state after the whole
    run; and that final state holds the new payload, [last_compressed_at],
    the counter reset to 0 and every consumed insight marked compressed. *)
Theorem compress_all_or_nothing (st : State) (s : nat) (m : Module) (use_ai : bool)
    (call : SummarizerCall) (now : nat) (k : nat) :
  let acts := (compress_plan st s m use_ai call now).2 in
  let obs := db_committed (run_db (mkDb st []) (firstn k acts)) in
  let final := (compress st s m use_ai call now).2 in
  ((forall s' : nat, board_view obs s' = board_view st s') /\ st_insights obs = st_insights st
   \/ obs = final) /\
  (forall p : Payload, (compress st s m use_ai call now).1 = Some p ->
     slot (board_view final s) m = mkSlot (Some p) (Some now) 0 /\
     (forall i : Insight, i ∈ query_uncompressed st s m -> marked now i ∈ st_insights final)).
Proof.
  intros acts obs final. split.
  - subst acts obs final. rewrite compress_state_exec.
    destruct (query_uncompressed st s m) as [|x xs] eqn:Hq.
    + left. unfold compress_plan. rewrite Hq. simpl. rewrite firstn_nil. split; reflexivity.
    + destruct (compress_plan_shape st s m use_ai call now x xs Hq) as [W [HW ->]].
      unfold get_or_create_memory_board.
      destruct (st_boards st !! s) as [b|] eqn:Hb; simpl app.
      * destruct (decide (k < length (app W [ACommit]))) as [Hk|Hk].
        -- left. rewrite crash_before_commit by assumption. split; reflexivity.
        -- right. rewrite firstn_all2 by lia. reflexivity.
      * destruct k as [|[|k]]; [left; split; reflexivity | left; split; reflexivity |].
        simpl firstn. rewrite run_db_create_board.
        destruct (decide (k < length (app W [ACommit]))) as [Hk|Hk].
        -- left. rewrite crash_before_commit by assumption.
           split; [|reflexivity]. intros s'. unfold board_view. simpl.
           destruct (decide (s = s')) as [->|Hss].
           ++ by rewrite lookup_insert_eq, Hb.
           ++ by rewrite lookup_insert_ne.
        -- right. rewrite firstn_all2 by lia. reflexivity.
  - intros p Hp. subst final.
    destruct (query_uncompressed st s m) as [|x xs] eqn:Hq.
    + rewrite compress_nothing in Hp by exact Hq. discriminate.
    + destruct (compress_effect st s m use_ai call now x xs Hq) as [Hr [Hins Hbd]].
      rewrite Hr in Hp. injection Hp as <-. split.
      * unfold board_view at 1. rewrite Hbd, lookup_insert_eq. apply slot_set_slot_eq.
      * intros i Hi. rewrite Hins. apply list_elem_of_fmap. exists i. split.
        -- unfold mark_all.
           assert (Hm : module_of (i_data i) = m).
           { assert (Hi' : i ∈ query_uncompressed st s m) by (rewrite Hq; exact Hi).
             apply In_query in Hi' as [_ Hu]. unfold is_uncompressed_of in Hu.
             apply andb_true_iff in Hu as [Hu _]. apply andb_true_iff in Hu as [_ Hu].
             by apply bool_decide_eq_true in Hu. }
           rewrite bool_decide_eq_true_2 by exact Hm.
           rewrite bool_decide_eq_true_2; [reflexivity|].
           apply list_elem_of_fmap. exists i. split; [reflexivity|exact Hi].
        -- assert (Hi' : i ∈ query_uncompressed st s m) by (rewrite Hq; exact Hi).
           apply In_query in Hi' as [Hin _]. exact Hin.
Qed.

Definition one_speaking_state : State :=
  mkState [mkInsight 1 3 1 empty_speaking false None] ∅.

Definition one_speaking_payload : Payload :=
  Eval vm_compute in
    match (compress one_speaking_state 3 Speaking false CallRaises 10).1 with
    | Some p => p
    | None => mkPayload (BListening [] false) 0 0 None
    end.

Lemma compress_all_or_nothing_witness :
  (compress one_speaking_state 3 Speaking false CallRaises 10).1 = Some one_speaking_payload /\
  slot (board_view (compress one_speaking_state 3 Speaking false CallRaises 10).2 3) Speaking
  = mkSlot (Some one_speaking_payload) (Some 10) 0.
Proof.
  assert (Hp : (compress one_speaking_state 3 Speaking false CallRaises 10).1
               = Some one_speaking_payload) by (vm_compute; reflexivity).
  split; [exact Hp|].
  destruct (compress_all_or_nothing one_speaking_state 3 Speaking false CallRaises 10 0)
    as [_ H2].
  exact (proj1 (H2 one_speaking_payload Hp)).
Defined.

(** ** C8: insight rows only ever get compressed *)

(** Row [j] is row [i] later on: same columns except the compression
    flag and time, and a compressed row stays compressed. *)
Definition evolves (i j : Insight) : Prop :=
  i_id j = i_id i /\ i_student j = i_student i /\ i_created_at j = i_created_at i /\
  i_data j = i_data i /\ (i_is_compressed i = true -> i_is_compressed j = true).

(** Every row of [st] is still at its place in [st'], evolved. *)
Definition grows (st st' : State) : Prop :=
  forall (n : nat) (i : Insight), st_insights st !! n = Some i ->
    exists j, st_insights st' !! n = Some j /\ evolves i j.

Lemma evolves_refl (i : Insight) : evolves i i.
Proof. unfold evolves. tauto. Qed.

Lemma evolves_trans (i j k : Insight) : evolves i j -> evolves j k -> evolves i k.
Proof. unfold evolves. intros (?&?&?&?&?) (?&?&?&?&?). repeat split; try congruence; tauto. Qed.

Lemma grows_refl (st : State) : grows st st.
Proof. intros n i H. exists i. split; [exact H | apply evolves_refl]. Qed.

Lemma grows_trans (st1 st2 st3 : State) : grows st1 st2 -> grows st2 st3 -> grows st1 st3.
Proof.
  intros H12 H23 n i Hi. destruct (H12 n i Hi) as [j [Hj Eij]].
  destruct (H23 n j Hj) as [k [Hk Ejk]]. exists k. split; [exact Hk | by eapply evolves_trans].
Qed.

Lemma grows_same_insights (st st' : State) :
  st_insights st' = st_insights st -> grows st st'.
Proof. intros Heq n i Hi. exists i. rewrite Heq. split; [exact Hi | apply evolves_refl]. Qed.

Lemma lookup_map_list {A B} (f : A -> B) (l : list A) (n : nat) :
  map f l !! n = option_map f (l !! n).
Proof.
  revert n. induction l as [|a l IH]; intros n; [reflexivity|].
  destruct n; simpl; [reflexivity | apply IH].
Qed.

Lemma mark_compressed_evolves (m : Module) (id t : nat) (i : Insight) :
  evolves i (mark_compressed m id t i).
Proof.
  unfold mark_compressed. destruct (_ && _); [|apply evolves_refl].
  unfold evolves; simpl. tauto.
Qed.

Lemma apply_action_grows (st : State) (a : Action) : grows st (apply_action st a).
Proof.
  destruct a; cbn [apply_action];
    try (apply grows_same_insights; reflexivity).
  - intros n j Hj. exists j. split; [|apply evolves_refl]. cbn [st_insights].
    rewrite lookup_app_l; [exact Hj|]. by eapply lookup_lt_Some.
  - intros n j Hj. exists (mark_compressed m id t j). cbn [st_insights].
    rewrite lookup_map_list, Hj. split; [reflexivity | apply mark_compressed_evolves].
Qed.

Lemma fold_apply_grows (l : list Action) (st : State) : grows st (fold_left apply_action l st).
Proof.
  revert st. induction l as [|a l IH]; intros st; simpl; [apply grows_refl|].
  eapply grows_trans; [apply apply_action_grows | apply IH].
Qed.

Lemma exec_grows (st : State) (acts : list Action) : grows st (exec st acts).
Proof.
  unfold exec. destruct (run_db_committed_prefix acts st []) as [l [_ ->]].
  apply fold_apply_grows.
Qed.

Lemma run_ops_grows (ops : list Op) (st : State) : grows st (run_ops st ops).
Proof.
  revert st. induction ops as [|op ops IH]; intros st; [apply grows_refl|].
  unfold run_ops in *. simpl. eapply grows_trans; [apply exec_grows | apply IH].
Qed.

(** C8. Under any sequence of service calls (extractions, threshold
    checks, compressions, memory and hint reads), every insight row stays
    in place with the same id, student, creation time and observation
    data, and a row that is compressed stays compressed. *)
Theorem insight_rows_monotone (st : State) (ops : list Op) (n : nat) (i : Insight)
    (Hi : st_insights st !! n = Some i) :
  exists j, st_insights (run_ops st ops) !! n = Some j /\
    i_id j = i_id i /\ i_student j = i_student i /\ i_created_at j = i_created_at i /\
    i_data j = i_data i /\ (i_is_compressed i = true -> i_is_compressed j = true).
Proof. exact (run_ops_grows ops st n i Hi). Qed.

Lemma insight_rows_monotone_witness :
  st_insights one_speaking_state !! 0 = Some (mkInsight 1 3 1 empty_speaking false None) /\
  exists j, st_insights (run_ops one_speaking_state
               [OCompress 3 Speaking false CallRaises 10; OExtract 3 (Some empty_speaking) 11;
                OGetHints 3]) !! 0 = Some j /\
    i_id j = 1 /\ i_student j = 3 /\ i_created_at j = 1 /\ i_data j = empty_speaking /\
    (false = true -> i_is_compressed j = true).
Proof.
  split; [reflexivity|].
  apply (insight_rows_monotone one_speaking_state
           [OCompress 3 Speaking false CallRaises 10; OExtract 3 (Some empty_speaking) 11;
            OGetHints 3] 0 (mkInsight 1 3 1 empty_speaking false None)).
  reflexivity.
Defined.

(** ** The frequency aggregator *)

Section GroupBySpec.
Context {A : Type}.

Fixpoint assoc_lookup (k : string) (g : list (string * list A)) : option (list A) :=
  match g with
  | [] => None
  | (k', vs) :: g' => if bool_decide (k = k') then Some vs else assoc_lookup k g'
  end.

Definition nonempty (l : list A) : option (list A) :=
  match l with [] => None | _ => Some l end.

(** What the dict holds for key [k] after the loop over [xs]. *)
Definition group_spec (skip_empty : bool) (key : A -> string) (xs : list A) (k : string)
    : option (list A) :=
  if skip_empty && bool_decide (k = "") then None
  else nonempty (filter (fun x => key x = k) xs).

Lemma lookup_group_add (k k0 : string) (x : A) (g : list (string * list A)) :
  assoc_lookup k (group_add k0 x g)
  = if bool_decide (k = k0) then Some (app (default [] (assoc_lookup k g)) [x])
    else assoc_lookup k g.
Proof.
  induction g as [|[k' vs] g IH]; simpl.
  - by case_bool_decide.
  - destruct (bool_decide (k0 = k')) eqn:H0; simpl.
    + apply bool_decide_eq_true in H0. subst k'.
      by destruct (bool_decide (k = k0)).
    + apply bool_decide_eq_false in H0. rewrite IH.
      destruct (bool_decide (k = k')) eqn:H1.
      * apply bool_decide_eq_true in H1. subst k'.
        rewrite bool_decide_eq_false_2 by congruence. reflexivity.
      * reflexivity.
Qed.

Lemma fst_group_add (k' k : string) (x : A) (g : list (string * list A)) :
  k' ∈ map fst (group_add k x g) <-> k' = k \/ k' ∈ map fst g.
Proof.
  induction g as [|[k0 vs] g IH]; simpl.
  - rewrite elem_of_cons, elem_of_nil. tauto.
  - destruct (bool_decide (k = k0)) eqn:H0; simpl.
    + apply bool_decide_eq_true in H0. subst k0. rewrite !elem_of_cons. tauto.
    + rewrite !elem_of_cons, IH. tauto.
Qed.

Lemma NoDup_group_add (k : string) (x : A) (g : list (string * list A)) :
  NoDup (map fst g) -> NoDup (map fst (group_add k x g)).
Proof.
  induction g as [|[k0 vs] g IH]; simpl; intros Hnd.
  - constructor; [apply not_elem_of_nil | constructor].
  - apply NoDup_cons in Hnd as [Hnot Hnd].
    destruct (bool_decide (k = k0)) eqn:H0; simpl.
    + by constructor.
    + apply bool_decide_eq_false in H0. constructor; [|by apply IH].
      rewrite fst_group_add. intros [->|Hin]; [congruence | tauto].
Qed.

Lemma default_nonempty (l : list A) : default [] (nonempty l) = l.
Proof. by destruct l. Qed.

Lemma group_by_fold (skip_empty : bool) (key : A -> string) (xs ys : list A) g :
  NoDup (map fst g) ->
  (forall k, assoc_lookup k g = group_spec skip_empty key ys k) ->
  NoDup (map fst (fold_left (fun g x =>
    if skip_empty && bool_decide (key x = "") then g
    else group_add (key x) x g) xs g)) /\
  (forall k, assoc_lookup k (fold_left (fun g x =>
    if skip_empty && bool_decide (key x = "") then g
    else group_add (key x) x g) xs g) = group_spec skip_empty key (app ys xs) k).
Proof.
  revert ys g. induction xs as [|x xs IH]; intros ys g Hnd Hl; simpl.
  - rewrite app_nil_r. by split.
  - replace (app ys (x :: xs)) with (app (app ys [x]) xs)
      by by rewrite <- app_assoc.
    apply IH.
    + destruct (skip_empty && bool_decide (key x = "")); [done|].
      by apply NoDup_group_add.
    + intros k. unfold group_spec. rewrite filter_app. simpl.
      destruct (skip_empty && bool_decide (key x = "")) eqn:Hs.
      * rewrite Hl. unfold group_spec.
        apply andb_true_iff in Hs as [-> Hx].
        apply bool_decide_eq_true in Hx. simpl.
        destruct (bool_decide (k = "")) eqn:Hk; [done|].
        apply bool_decide_eq_false in Hk.
        rewrite filter_cons_False, filter_nil, app_nil_r by congruence.
        reflexivity.
      * rewrite lookup_group_add, Hl. unfold group_spec.
        destruct (bool_decide (k = key x)) eqn:Hk.
        -- apply bool_decide_eq_true in Hk. subst k.
           rewrite filter_cons_True, filter_nil by done.
           rewrite Hs, default_nonempty. by destruct (filter _ ys).
        -- apply bool_decide_eq_false in Hk.
           rewrite filter_cons_False, filter_nil, app_nil_r by congruence.
           reflexivity.
Qed.

Lemma group_by_spec (skip_empty : bool) (key : A -> string) (xs : list A) :
  NoDup (map fst (group_by skip_empty key xs)) /\
  (forall k, assoc_lookup k (group_by skip_empty key xs)
             = group_spec skip_empty key xs k).
Proof.
  unfold group_by.
  apply (group_by_fold skip_empty key xs [] []).
  - constructor.
  - intros k. unfold group_spec. simpl. by destruct (_ && _).
Qed.

Lemma assoc_lookup_in (k : string) (vs : list A) (g : list (string * list A)) :
  assoc_lookup k g = Some vs -> (k, vs) ∈ g.
Proof.
  induction g as [|[k' ws] g IH]; simpl; [discriminate|].
  rewrite elem_of_cons. destruct (bool_decide (k = k')) eqn:Hk.
  - apply bool_decide_eq_true in Hk. subst. intros H. inversion H. by left.
  - intros H. right. by apply IH.
Qed.

Lemma elem_of_assoc (k : string) (vs : list A) (g : list (string * list A)) :
  NoDup (map fst g) -> (k, vs) ∈ g <-> assoc_lookup k g = Some vs.
Proof.
  induction g as [|[k' ws] g IH]; simpl; intros Hnd.
  - split; [intros H; by apply elem_of_nil in H | done].
  - apply NoDup_cons in Hnd as [Hnot Hnd].
    rewrite elem_of_cons, IH by done.
    destruct (bool_decide (k = k')) eqn:Hk.
    + apply bool_decide_eq_true in Hk. subst k'. split.
      * intros [Heq|Hl]; [by inversion Heq|].
        exfalso. apply Hnot. apply list_elem_of_In, in_map_iff.
        exists (k, vs). split; [done|]. by apply list_elem_of_In, assoc_lookup_in.
      * intros H. inversion H. by left.
    + apply bool_decide_eq_false in Hk. split.
      * intros [Heq|Hl]; [inversion Heq; congruence | done].
      * intros H. by right.
Qed.
End GroupBySpec.

Lemma NoDup_fst_filter {B} (P : string * B -> Prop) `{forall x, Decision (P x)}
    (g : list (string * B)) :
  NoDup (map fst g) -> NoDup (map fst (filter P g)).
Proof.
  induction g as [|kx g IH]; simpl; intros Hnd; [constructor|].
  apply NoDup_cons in Hnd as [Hnot Hnd].
  destruct (decide (P kx)).
  - rewrite filter_cons_True by done. simpl. constructor; [|by apply IH].
    intros Hin. apply Hnot.
    apply list_elem_of_In, in_map_iff in Hin as [y [Hy Hin]].
    apply list_elem_of_In, in_map_iff. exists y. split; [done|].
    apply list_elem_of_In. apply list_elem_of_In, list_elem_of_filter in Hin. tauto.
  - rewrite filter_cons_False by done. by apply IH.
Qed.

Lemma map_e_key_chronic min_freq high_at scored g :
  map e_key (chronic min_freq high_at scored g)
  = map fst (filter (fun kx : string * list Obs => bool_decide (min_freq <= length kx.2)) g).
Proof. unfold chronic. rewrite map_map. reflexivity. Qed.

Lemma elem_of_group_by {A} (skip_empty : bool) (key : A -> string) (xs : list A)
    (k : string) (vs : list A) :
  (k, vs) ∈ group_by skip_empty key xs <->
  (skip_empty = true -> k <> "") /\ vs = filter (fun x => key x = k) xs /\ vs <> [].
Proof.
  destruct (group_by_spec skip_empty key xs) as [Hnd Hl].
  rewrite elem_of_assoc, Hl by done. unfold group_spec.
  destruct skip_empty; simpl.
  - destruct (bool_decide (k = "")) eqn:Hk.
    + apply bool_decide_eq_true in Hk. split; [discriminate|]. tauto.
    + apply bool_decide_eq_false in Hk.
      destruct (filter _ xs) eqn:Hf; simpl; split.
      * discriminate.
      * intros (_ & -> & Hne); congruence.
      * intros H. inversion H. split; [done|]. split; [done|discriminate].
      * intros (_ & -> & _). done.
  - destruct (filter _ xs) eqn:Hf; simpl; split.
    + discriminate.
    + intros (_ & -> & Hne); congruence.
    + intros H. inversion H. split; [discriminate|]. split; [done|discriminate].
    + intros (_ & -> & _). done.
Qed.

Lemma Is_true_bool_decide (P : Prop) `{Decision P} : Is_true (bool_decide P) <-> P.
Proof. destruct (bool_decide P) eqn:E; simpl; split; try done.
  - intros _. by apply bool_decide_eq_true in E.
  - intros HP. apply bool_decide_eq_false in E. by apply E. Qed.

(** C1, counterexample. A single Speaking Insight whose
    [mispronounced_words] names "the" twice yields a chronic entry of
    frequency 2 (the count of occurrences, not of Insights), and a single
    Conversation Insight with one vocabulary gap keeps that frequency-1 gap
    in [vocabulary_gaps]. *)
Lemma frequency_counts_occurrences_cex :
  build_body Speaking [SD (mkSpeakingObs [mkObs "the" 50 ""; mkObs "the" 40 ""] [] [])]
  = BSpeaking [mkEntry "the" 2 (Some 45%Q) (Some "medium")] [] [] /\
  match build_body Conversation
          [CD (mkConversationObs [] [mkObs "hello" 0 ""] [] [] [] [] 0)] with
  | BConversation _ vocabulary_gaps _ _ _ _ _ =>
      vocabulary_gaps = [mkEntry "hello" 1 None (Some "medium")]
  | _ => False
  end.
Proof. split; vm_compute; reflexivity. Qed.

(** Membership in a chronic list, from the grouping lemmas. *)
Lemma elem_of_aggregate (key : Obs -> string) (skip_empty : bool) (min_freq : nat)
    (high_at : option nat) (scored : bool) (xs : list Obs) (e : Entry) :
  e ∈ aggregate key skip_empty min_freq high_at scored xs <->
    exists k, (skip_empty = true -> k <> "") /\
      let occ := filter (fun o => key o = k) xs in
      occ <> [] /\ min_freq <= length occ /\
      e = mkEntry k (length occ)
            (if scored then Some (mean (map o_score occ)) else None)
            (option_map (fun h => priority_of h (length occ)) high_at).
Proof.
  unfold aggregate, chronic. rewrite list_elem_of_In, in_map_iff. split.
  - intros [[k vs] [He Hin]].
    apply list_elem_of_In, list_elem_of_filter in Hin as [Hmin Hin].
    apply Is_true_bool_decide in Hmin. simpl in Hmin.
    apply elem_of_group_by in Hin as (Hk & -> & Hne).
    exists k. split; [done|]. simpl. split; [done|]. split; [done|]. by rewrite <- He.
  - intros (k & Hk & Hne & Hmin & ->).
    exists (k, filter (fun o => key o = k) xs). split; [reflexivity|].
    apply list_elem_of_In, list_elem_of_filter. split.
    + apply Is_true_bool_decide. exact Hmin.
    + apply elem_of_group_by. done.
Qed.

(** The reference Frequency Aggregator, stated on the flat list [xs] of
    observations: key [k] occurs in [xs] ([k] non-empty where the code has
    the [if k:] guard) at least [min_freq] times. *)
Definition qualifies (key : Obs -> string) (skip_empty : bool) (min_freq : nat)
    (xs : list Obs) (k : string) : Prop :=
  (skip_empty = true -> k <> "") /\
  filter (fun o => key o = k) xs <> [] /\
  min_freq <= length (filter (fun o => key o = k) xs).

(** The entry of key [k]: its number of occurrences, the mean of their
    scores, and its priority. *)
Definition entry_for (key : Obs -> string) (high_at : option nat) (scored : bool)
    (xs : list Obs) (k : string) : Entry :=
  let occ := filter (fun o => key o = k) xs in
  mkEntry k (length occ)
    (if scored then Some (mean (map o_score occ)) else None)
    (option_map (fun h => priority_of h (length occ)) high_at).

(** A stored list [l] agrees with the reference: one entry per key at most,
    every entry is the reference entry of a qualifying key, every
    qualifying key is present unless the list is cut ([capped]) and already
    holds 10 entries, and a cut list has at most 10 entries. *)
Definition stored_list_spec (capped : bool) (key : Obs -> string) (skip_empty : bool)
    (min_freq : nat) (high_at : option nat) (scored : bool) (xs : list Obs)
    (l : list Entry) : Prop :=
  NoDup (map e_key l) /\
  (forall e, e ∈ l -> exists k, qualifies key skip_empty min_freq xs k /\
                                e = entry_for key high_at scored xs k) /\
  (forall k, qualifies key skip_empty min_freq xs k ->
             capped = false \/ length l < 10 ->
             entry_for key high_at scored xs k ∈ l) /\
  (capped = true -> length l <= 10).

Lemma insert_desc_perm (e : Entry) (l : list Entry) : insert_desc e l ≡ₚ e :: l.
Proof.
  induction l as [|e' l IH]; simpl; [done|].
  case_bool_decide; [|done].
  rewrite IH. apply Permutation_swap.
Qed.

Lemma sort_by_frequency_desc_perm (l : list Entry) : sort_by_frequency_desc l ≡ₚ l.
Proof.
  unfold sort_by_frequency_desc.
  cut (forall acc, fold_left (fun acc e => insert_desc e acc) l acc ≡ₚ app (rev l) acc).
  { intros H. rewrite H, app_nil_r. symmetry. apply Permutation_rev. }
  induction l as [|e l IH]; intros acc; simpl; [done|].
  rewrite IH, insert_desc_perm, <- app_assoc. done.
Qed.

Lemma stored_list_spec_aggregate key skip_empty min_freq high_at scored xs :
  stored_list_spec false key skip_empty min_freq high_at scored xs
    (aggregate key skip_empty min_freq high_at scored xs).
Proof.
  split; [|split; [|split]].
  - unfold aggregate. rewrite map_e_key_chronic. apply NoDup_fst_filter.
    apply group_by_spec.
  - intros e He. apply elem_of_aggregate in He as (k & Hk & Hne & Hmin & ->).
    exists k. done.
  - intros k (Hk & Hne & Hmin) _. apply elem_of_aggregate. exists k. done.
  - discriminate.
Qed.

Lemma stored_list_spec_perm key skip_empty min_freq high_at scored xs l l' :
  l' ≡ₚ l ->
  stored_list_spec false key skip_empty min_freq high_at scored xs l ->
  stored_list_spec false key skip_empty min_freq high_at scored xs l'.
Proof.
  intros Hp (Hnd & Hsound & Hcomp & _). split; [|split; [|split]].
  - by rewrite Hp.
  - intros e He. apply Hsound. by rewrite <- Hp.
  - intros k Hk _. rewrite Hp. apply Hcomp; auto.
  - discriminate.
Qed.

Lemma stored_list_spec_top10 key skip_empty min_freq high_at scored xs l :
  stored_list_spec false key skip_empty min_freq high_at scored xs l ->
  stored_list_spec true key skip_empty min_freq high_at scored xs (top10 l).
Proof.
  unfold top10. intros (Hnd & Hsound & Hcomp & _). split; [|split; [|split]].
  - rewrite <- firstn_map. eapply sublist_NoDup; [done|apply sublist_take].
  - intros e He. apply Hsound.
    eapply elem_of_submseteq; [exact He|]. apply sublist_submseteq, sublist_take.
  - intros k Hk [?|Hlt]; [discriminate|].
    rewrite take_ge; [apply Hcomp; [done|by left]|].
    rewrite length_take in Hlt. lia.
  - intros _. apply firstn_le_length.
Qed.

Lemma stored_list_spec_top10_sorted key skip_empty min_freq high_at scored xs :
  stored_list_spec true key skip_empty min_freq high_at scored xs
    (top10 (sort_by_frequency_desc (aggregate key skip_empty min_freq high_at scored xs))).
Proof.
  apply stored_list_spec_top10, (stored_list_spec_perm _ _ _ _ _ _ (aggregate key skip_empty min_freq high_at scored xs)).
  - apply sort_by_frequency_desc_perm.
  - apply stored_list_spec_aggregate.
Qed.

Lemma stored_list_spec_top10_aggregate key skip_empty min_freq high_at scored xs :
  stored_list_spec true key skip_empty min_freq high_at scored xs
    (top10 (aggregate key skip_empty min_freq high_at scored xs)).
Proof. apply stored_list_spec_top10, stored_list_spec_aggregate. Qed.

(** C1 (amended). Every chronic list that [compress_<module>_memory] stores,
    for every module and every set of consumed Insights [ds]: the flat list
    of all observations of the Insights is grouped by key; each stored entry
    is the entry of a distinct key [k] that occurs ([k] non-empty where the
    code skips empty keys) and whose number of occurrences reaches the list's
    [min_freq]; the entry's frequency is that number of occurrences (a key
    repeated inside one Insight counts every time), its average (for scored
    lists) is the mean of the scores of those occurrences, and its priority
    (for lists with one) is "high" when the frequency reaches [high_at] and
    "medium" otherwise.  A qualifying key is always present in the lists
    that are not cut ([capped = false]: the Reading and Listening
    comprehension weaknesses and the Speaking fluency patterns); the other
    lists keep at most 10 entries ([l[:10]]) and miss a qualifying key only
    when they hold 10 entries.  The thresholds per list are those written in
    the statement. *)
Theorem chronic_lists_of_build_body (m : Module) (ds : list InsightData) :
  match build_body m ds with
  | BReading vocabulary_gaps comprehension_weaknesses _ _ =>
      let os := omap reading_obs ds in
      stored_list_spec true o_key true 2 (Some 3) false
        (concat (map r_vocabulary_mistakes os)) vocabulary_gaps /\
      stored_list_spec false o_key false 0 (Some 3) false
        (obs_of_strings (concat (map r_question_types_struggled os))) comprehension_weaknesses
  | BListening comprehension_weaknesses _ =>
      let os := omap listening_obs ds in
      stored_list_spec false o_key false 0 (Some 3) false
        (obs_of_strings (concat (map l_question_types_struggled os))) comprehension_weaknesses
  | BSpeaking chronic_pronunciation_errors problem_phonemes fluency_patterns =>
      let os := omap speaking_obs ds in
      stored_list_spec true (fun o => lower (o_key o)) true 2 (Some 3) true
        (concat (map s_mispronounced_words os)) chronic_pronunciation_errors /\
      stored_list_spec true o_key true 2 (Some 3) true
        (concat (map s_phoneme_errors os)) problem_phonemes /\
      stored_list_spec false o_key false 2 None false
        (obs_of_strings (concat (map s_fluency_problems os))) fluency_patterns
  | BWriting chronic_grammar_errors recurring_style_issues vocabulary_weaknesses content_patterns _ =>
      let os := omap writing_obs ds in
      stored_list_spec true o_key true 2 (Some 3) false
        (concat (map w_grammar_errors os)) chronic_grammar_errors /\
      stored_list_spec true o_key true 2 (Some 3) false
        (obs_of_strings (concat (map w_style_issues os))) recurring_style_issues /\
      stored_list_spec true o_key true 2 (Some 3) false
        (obs_of_strings (concat (map w_vocabulary_issues os))) vocabulary_weaknesses /\
      stored_list_spec true o_key true 2 (Some 3) false
        (obs_of_strings (concat (map w_content_weaknesses os))) content_patterns
  | BConversation chronic_grammar_errors vocabulary_gaps fluency_patterns topic_struggles
                  chronic_mispronunciations problem_phonemes _ =>
      let os := omap conversation_obs ds in
      stored_list_spec true o_key true 2 (Some 3) false
        (concat (map c_grammar_errors os)) chronic_grammar_errors /\
      stored_list_spec true o_key true 1 (Some 2) false
        (concat (map c_vocabulary_gaps os)) vocabulary_gaps /\
      stored_list_spec true o_key false 2 (Some 3) false
        (obs_of_strings (concat (map c_fluency_issues os))) fluency_patterns /\
      stored_list_spec true o_key false 1 (Some 2) false
        (obs_of_strings (concat (map c_topic_struggles os))) topic_struggles /\
      stored_list_spec true (fun o => lower (o_key o)) true 1 (Some 2) true
        (concat (map c_mispronounced_words os)) chronic_mispronunciations /\
      stored_list_spec true o_key true 1 (Some 2) true
        (concat (map c_phoneme_errors os)) problem_phonemes
  end.
Proof.
  destruct m; cbn [build_body reading_body listening_body speaking_body writing_body
                   conversation_body speaking_chronic_words];
    repeat split;
    first [ apply stored_list_spec_top10_sorted
          | apply stored_list_spec_top10_aggregate
          | apply stored_list_spec_aggregate ].
Qed.

(** ** The Speaking scenario *)

(** A Speaking Insight of student 7 created at time [id] whose
    [mispronounced_words] is [[{"word": w, "accuracy": acc}]]. *)
Definition speaking_insight (id : nat) (w : string) (acc : Z) : Insight :=
  mkInsight id 7 id (SD (mkSpeakingObs [mkObs w acc ""] [] [])) false None.

(** The newest Insight names "comfortable". *)
Definition scenario_comfortable_newest : State :=
  mkState [speaking_insight 1 "world" 80; speaking_insight 2 "world" 82;
           speaking_insight 3 "comfortable" 60; speaking_insight 4 "comfortable" 65;
           speaking_insight 5 "comfortable" 68] ∅.

(** The newest Insight names "world". *)
Definition scenario_world_newest : State :=
  mkState [speaking_insight 1 "comfortable" 60; speaking_insight 2 "comfortable" 65;
           speaking_insight 3 "comfortable" 68; speaking_insight 4 "world" 80;
           speaking_insight 5 "world" 82] ∅.

Definition all_compressed (st : State) : bool :=
  forallb i_is_compressed (st_insights st).

(** C3, counterexample. Even when the newest Insight names "comfortable",
    [compress_speaking_memory(7, use_ai=False)] reports the average accuracy
    of "comfortable" as [(60+65+68)/3 = 193/3] (64.33..., not rounded),
    which is not 64.3. *)
Lemma speaking_scenario_average_cex :
  (compress scenario_comfortable_newest 7 Speaking false CallRaises 10).1
  = Some (mkPayload
            (BSpeaking [mkEntry "comfortable" 3 (Some (193 # 3)%Q) (Some "high");
                        mkEntry "world" 2 (Some 81%Q) (Some "medium")] [] [])
            5 10 None) /\
  ~ (193 # 3 == 643 # 10)%Q.
Proof.
  split.
  - vm_compute. reflexivity.
  - unfold Qeq. simpl. lia.
Qed.

(** C3 (amended). On the scenario (5 uncompressed Speaking Insights,
    "comfortable" in 3 of them with accuracies 60, 65, 68 and "world" in 2
    with accuracies 80, 82), whichever Insight is the newest,
    [compress_speaking_memory(use_ai=False)] returns a payload whose
    [chronic_pronunciation_errors] consists of exactly the two entries
    [{comfortable, 3, 193/3, high}] and [{world, 2, 81, medium}] (the
    average being the unrounded mean), with [total_sessions_analyzed = 5],
    and afterwards all 5 Insights are flagged compressed. *)
Theorem speaking_scenario :
  Forall (fun st =>
    exists chronic_pronunciation_errors,
      ((compress st 7 Speaking false CallRaises 10).1
       = Some (mkPayload (BSpeaking chronic_pronunciation_errors [] []) 5 10 None)) /\
      (chronic_pronunciation_errors
         ≡ₚ [mkEntry "comfortable" 3 (Some (193 # 3)%Q) (Some "high");
             mkEntry "world" 2 (Some 81%Q) (Some "medium")]) /\
      all_compressed (compress st 7 Speaking false CallRaises 10).2 = true)
    [scenario_comfortable_newest; scenario_world_newest].
Proof.
  constructor; [|constructor; [|constructor]].
  - exists [mkEntry "comfortable" 3 (Some (193 # 3)%Q) (Some "high");
            mkEntry "world" 2 (Some 81%Q) (Some "medium")].
    split; [vm_compute; reflexivity|]. split; [reflexivity|vm_compute; reflexivity].
  - exists [mkEntry "world" 2 (Some 81%Q) (Some "medium");
            mkEntry "comfortable" 3 (Some (193 # 3)%Q) (Some "high")].
    split; [vm_compute; reflexivity|]. split; [apply Permutation_swap|vm_compute; reflexivity].
Qed.

(** ** The summarizer failing *)

(** The Summarizer unavailable: an exception inside the [try:] block
    ([CallRaises]), or the API request raising or timing out, or no API key
    (both caught inside [generate_content]). *)
Definition summarizer_unavailable (call : SummarizerCall) : Prop :=
  call = CallRaises \/ call = CallReturns ApiRaise \/ call = CallReturns ApiNoKey.

Definition set_summary (p : Payload) (o : option string) : Payload :=
  mkPayload (p_body p) (p_total_sessions_analyzed p) (p_last_compressed_at p) o.

(** The summary the code stores when the Summarizer is unavailable. *)
Definition failure_summary (m : Module) (n : nat) (call : SummarizerCall) : string :=
  match call with
  | CallRaises => fallback_summary m n
  | CallReturns _ => "Analysis complete"
  end.

Definition two_speaking_state : State :=
  mkState [speaking_insight 1 "cat" 50; speaking_insight 2 "dog" 60] ∅.

(** C5, failing input. A Speaking compression with [use_ai=True] while the
    OpenAI request raises or times out ([ApiRaise]), or while no API key is
    set ([ApiNoKey]): [generate_content] catches the failure and returns its
    error dict, [compress_speaking_memory] does not test its "error" key and
    stores the constant "Analysis complete", the same for 1 and for 2
    analyzed sessions. Only an exception inside the [try:] block itself
    ([CallRaises]) reaches the count-based fallback of the [except] branch,
    a different text. *)
Theorem summary_ignores_api_error :
  option_map p_summary (compress one_speaking_state 3 Speaking true (CallReturns ApiRaise) 10).1
  = Some (Some "Analysis complete") /\
  option_map p_summary (compress one_speaking_state 3 Speaking true (CallReturns ApiNoKey) 10).1
  = Some (Some "Analysis complete") /\
  option_map p_summary (compress two_speaking_state 7 Speaking true (CallReturns ApiRaise) 10).1
  = Some (Some "Analysis complete") /\
  option_map p_total_sessions_analyzed (compress one_speaking_state 3 Speaking true (CallReturns ApiRaise) 10).1
  = Some 1 /\
  option_map p_total_sessions_analyzed (compress two_speaking_state 7 Speaking true (CallReturns ApiRaise) 10).1
  = Some 2 /\
  option_map p_summary (compress one_speaking_state 3 Speaking true CallRaises 10).1
  = Some (Some (fallback_summary Speaking 1)) /\
  "Analysis complete" <> fallback_summary Speaking 1.
Proof. repeat split; vm_compute; try reflexivity. discriminate. Qed.

(** Extra. With [use_ai=True] and the Summarizer unavailable,
    compression completes exactly as with [use_ai=False] (same result, same
    Insights flagged, the payload stored with the slot's timestamp set and
    counter reset) except that the payload carries a non-null deterministic
    summary: the count-based fallback "Analyzed N sessions. Focus on ..."
    when an exception escapes inside the [try:] block, and the constant
    "Analysis complete" when the API request itself fails or no API key is
    set (the client catches that and returns an error dict). *)
Theorem compress_summarizer_unavailable (st : State) (s : nat) (m : Module)
    (call : SummarizerCall) (now : nat) (Hfail : summarizer_unavailable call) :
  (compress st s m true call now).1
  = option_map (fun p => set_summary p
                   (Some (failure_summary m (p_total_sessions_analyzed p) call)))
               (compress st s m false call now).1 /\
  st_insights (compress st s m true call now).2
  = st_insights (compress st s m false call now).2 /\
  (forall p, (compress st s m true call now).1 = Some p ->
     slot (board_view (compress st s m true call now).2 s) m = mkSlot (Some p) (Some now) 0).
Proof.
  destruct (query_uncompressed st s m) as [|x xs] eqn:Hq.
  - rewrite !compress_nothing by done. simpl. split; [done|]. split; [done|].
    discriminate.
  - destruct (compress_effect st s m true call now x xs Hq) as (H1 & H2 & H3).
    destruct (compress_effect st s m false call now x xs Hq) as (H1' & H2' & _).
    rewrite H1, H1'. split; [|split].
    + simpl. unfold set_summary. simpl. do 2 f_equal.
      destruct Hfail as [->|[->| ->]]; reflexivity.
    + by rewrite H2, H2'.
    + intros p Hp. injection Hp as <-. unfold board_view.
      rewrite H3, lookup_insert_eq. apply slot_set_slot_eq.
Qed.

Lemma compress_summarizer_unavailable_witness :
  summarizer_unavailable (CallReturns ApiRaise) /\
  (compress one_speaking_state 3 Speaking true (CallReturns ApiRaise) 10).1
  = option_map (fun p => set_summary p
                   (Some (failure_summary Speaking (p_total_sessions_analyzed p) (CallReturns ApiRaise))))
               (compress one_speaking_state 3 Speaking false (CallReturns ApiRaise) 10).1 /\
  st_insights (compress one_speaking_state 3 Speaking true (CallReturns ApiRaise) 10).2
  = st_insights (compress one_speaking_state 3 Speaking false (CallReturns ApiRaise) 10).2 /\
  (forall p, (compress one_speaking_state 3 Speaking true (CallReturns ApiRaise) 10).1 = Some p ->
     slot (board_view (compress one_speaking_state 3 Speaking true (CallReturns ApiRaise) 10).2 3) Speaking
     = mkSlot (Some p) (Some 10) 0).
Proof.
  assert (Hf : summarizer_unavailable (CallReturns ApiRaise)) by (right; left; reflexivity).
  split; [exact Hf|].
  apply (compress_summarizer_unavailable one_speaking_state 3 Speaking (CallReturns ApiRaise) 10 Hf).
Defined.

(** ** Order of the chronic lists *)

(** Whether the frequencies of a list never increase. *)
Fixpoint frequency_sorted_desc (l : list Entry) : bool :=
  match l with
  | e1 :: (e2 :: _) as l' => bool_decide (e_frequency e2 <= e_frequency e1) && frequency_sorted_desc l'
  | _ => true
  end.

(** C7, failing input. When the newest Speaking Insight names "world"
    (2 occurrences) and older ones name "comfortable" (3 occurrences),
    [compress_speaking_memory] stores [chronic_pronunciation_errors] as
    [[world (2), comfortable (3)]]: [chronic_words[:10]] keeps the dict's
    insertion order and is never sorted by frequency. *)
Theorem speaking_chronic_list_unsorted :
  match (compress scenario_world_newest 7 Speaking false CallRaises 10).1 with
  | Some p =>
      match p_body p with
      | BSpeaking chronic _ _ =>
          map e_frequency chronic = [2; 3] /\ frequency_sorted_desc chronic = false
      | _ => False
      end
  | None => False
  end.
Proof. vm_compute. split; reflexivity. Qed.

(** ** Adaptive question focus *)

(** C9, counterexample. For a student without a Memory Board,
    [get_adaptive_question_focus] returns the defaults but goes through
    [get_or_create_memory_board], which adds and commits a new board: the
    stored state after the call differs from the state before it. *)
Lemma adaptive_focus_creates_board_cex :
  (get_adaptive_question_focus (mkState [] ∅) 1).1 = default_hints /\
  st_boards (mkState [] ∅) !! 1 = None /\
  st_boards (exec (mkState [] ∅) (get_adaptive_question_focus (mkState [] ∅) 1).2) !! 1
  = Some new_board.
Proof. repeat split; vm_compute; reflexivity. Qed.

(** C9 (amended). [get_adaptive_question_focus] returns the defaults (no
    focus topics, no challenge words, question types
    [inference, main_idea, detail, vocabulary], difficulty "intermediate")
    when the student has no Memory Board or no reading payload; it leaves
    every Insight unchanged, its only write is the creation (and commit) of
    an empty Memory Board for a student who has none, and for a student who
    has a board it changes nothing. *)
Theorem adaptive_focus_effects (st : State) (s : nat) :
  (sl_memory (slot (board_view st s) Reading) = None ->
   (get_adaptive_question_focus st s).1 = default_hints) /\
  st_insights (exec st (get_adaptive_question_focus st s).2) = st_insights st /\
  st_boards (exec st (get_adaptive_question_focus st s).2)
  = <[s := board_view st s]> (st_boards st) /\
  (st_boards st !! s <> None -> exec st (get_adaptive_question_focus st s).2 = st).
Proof.
  unfold get_adaptive_question_focus, get_memory, get_or_create_memory_board, board_view.
  destruct (st_boards st !! s) as [b|] eqn:Hb.
  - destruct (sl_memory (slot b Reading)) eqn:Hm; cbn.
    + split; [discriminate|]. split; [done|].
      split; [by rewrite insert_id|]. done.
    + split; [done|]. split; [done|]. split; [by rewrite insert_id|]. done.
  - cbn. split; [done|]. split; [done|]. split; [done|]. by intros [].
Qed.

Lemma adaptive_focus_effects_witness :
  (sl_memory (slot (board_view (mkState [] ∅) 1) Reading) = None ->
   (get_adaptive_question_focus (mkState [] ∅) 1).1 = default_hints) /\
  st_insights (exec (mkState [] ∅) (get_adaptive_question_focus (mkState [] ∅) 1).2) = [] /\
  st_boards (exec (mkState [] ∅) (get_adaptive_question_focus (mkState [] ∅) 1).2)
  = <[1 := new_board]> ∅.
Proof.
  destruct (adaptive_focus_effects (mkState [] ∅) 1) as (H1 & H2 & H3 & _).
  split; [exact H1|]. split; [exact H2|]. exact H3.
Defined.

(* ================================================================= *)
(** * Further properties of the service *)

(** ** Row ids and the session counters *)

(** The rows of the table of module [m]. *)
Definition module_rows (st : State) (m : Module) : list Insight :=
  filter (fun i => module_of (i_data i) = m) (st_insights st).

(** Row ids are the primary keys of each insight table. *)
Definition ids_unique (st : State) : Prop :=
  forall m, NoDup (map i_id (module_rows st m)).

(** Every [<m>_sessions_since_compression] equals the number of
    uncompressed insights of that student and module. *)
Definition counters_match (st : State) : Prop :=
  forall s m, counter_of st s m = length (uncompressed st s m).

Lemma counter_of_view (st : State) (s : nat) (m : Module) :
  counter_of st s m = sl_sessions_since_compression (slot (board_view st s) m).
Proof. unfold counter_of, board_view. by destruct (st_boards st !! s); [|destruct m]. Qed.

Lemma counter_of_insert (ins : list Insight) (bs : gmap nat Board) (s s' : nat) (b : Board)
    (m : Module) :
  counter_of (mkState ins (<[s := b]> bs)) s' m
  = if decide (s = s') then sl_sessions_since_compression (slot b m)
    else counter_of (mkState ins bs) s' m.
Proof.
  unfold counter_of. simpl. destruct (decide (s = s')) as [->|Hne].
  - by rewrite lookup_insert_eq.
  - by rewrite lookup_insert_ne.
Qed.

Lemma foldr_max_ge (l : list nat) (x : nat) : x ∈ l -> x <= foldr Nat.max 0 l.
Proof.
  induction l as [|y l IH]; simpl; intros Hx.
  - by apply not_elem_of_nil in Hx.
  - apply elem_of_cons in Hx as [->|Hx]; [lia|]. specialize (IH Hx). lia.
Qed.

Lemma fresh_id_new (st : State) (m : Module) (j : Insight) :
  j ∈ module_rows st m -> i_id j < fresh_id st m.
Proof.
  intros Hj. unfold fresh_id. apply Nat.lt_succ_r, foldr_max_ge.
  apply list_elem_of_In, in_map_iff. exists j. split; [done|]. by apply list_elem_of_In.
Qed.

Lemma NoDup_map_inj_in {A B} (f : A -> B) (l : list A) (x y : A) :
  NoDup (map f l) -> x ∈ l -> y ∈ l -> f x = f y -> x = y.
Proof.
  induction l as [|z l IH]; simpl; intros Hnd Hx Hy Hf.
  - by apply not_elem_of_nil in Hx.
  - apply NoDup_cons in Hnd as [Hnot Hnd].
    apply elem_of_cons in Hx as [->|Hx]; apply elem_of_cons in Hy as [->|Hy]; try done.
    + exfalso. apply Hnot. rewrite Hf. apply list_elem_of_In, in_map_iff.
      exists y. split; [done|]. by apply list_elem_of_In.
    + exfalso. apply Hnot. rewrite <- Hf. apply list_elem_of_In, in_map_iff.
      exists x. split; [done|]. by apply list_elem_of_In.
    + by apply IH.
Qed.

Lemma filter_map_same {A} (P : A -> Prop) `{forall x, Decision (P x)} (f : A -> A) (l : list A) :
  (forall j, j ∈ l -> P j -> f j = j) ->
  (forall j, j ∈ l -> ~ P j -> ~ P (f j)) ->
  filter P (map f l) = filter P l.
Proof.
  induction l as [|j l IH]; simpl; intros Hfix Hout; [reflexivity|].
  destruct (decide (P j)) as [Hp|Hp].
  - rewrite Hfix by (by left || done).
    rewrite !filter_cons_True by done. f_equal.
    apply IH; intros k Hk; [apply Hfix | apply Hout]; by right.
  - rewrite !filter_cons_False by (done || (apply Hout; [by left | done])).
    apply IH; intros k Hk; [apply Hfix | apply Hout]; by right.
Qed.

Lemma filter_map_data (m : Module) (f : Insight -> Insight) (l : list Insight) :
  (forall j, i_data (f j) = i_data j) ->
  filter (fun i => module_of (i_data i) = m) (map f l)
  = map f (filter (fun i => module_of (i_data i) = m) l).
Proof.
  intros Hf. induction l as [|j l IH]; simpl; [reflexivity|].
  rewrite !filter_cons, Hf. destruct (decide _); simpl; by rewrite IH.
Qed.

Lemma mark_all_id (m : Module) (ids : list nat) (t : nat) (j : Insight) :
  i_id (mark_all m ids t j) = i_id j.
Proof. unfold mark_all. by destruct (_ && _). Qed.

(** The writes of the three read calls are those of
    [get_or_create_memory_board]. *)
Lemma read_op_actions (st : State) (s : nat) (m : Module) :
  op_actions st (OShouldCompress s m) = (get_or_create_memory_board st s).2 /\
  op_actions st (OGetMemory s m) = (get_or_create_memory_board st s).2 /\
  op_actions st (OGetHints s) = (get_or_create_memory_board st s).2.
Proof.
  unfold op_actions, should_compress, get_memory, get_adaptive_question_focus, get_memory.
  destruct (get_or_create_memory_board st s) as [b acts]. cbn.
  split; [reflexivity|]. split; [reflexivity|].
  by case_match.
Qed.

Lemma get_or_create_exec (st : State) (s : nat) :
  exec st (get_or_create_memory_board st s).2
  = mkState (st_insights st) (<[s := board_view st s]> (st_boards st)).
Proof.
  unfold get_or_create_memory_board, board_view.
  destruct (st_boards st !! s) as [b|] eqn:Hb; simpl.
  - rewrite insert_id by done. by destruct st.
  - reflexivity.
Qed.

(** One extraction: the new row is appended and the counter of its module
    goes up by one, the board being created first when missing. *)
Lemma extract_effect (st : State) (s : nat) (d : InsightData) (now : nat) :
  op_step st (OExtract s (Some d) now)
  = mkState (app (st_insights st) [mkInsight (fresh_id st (module_of d)) s now d false None])
      (<[s := set_slot (board_view st s) (module_of d)
                (mkSlot (sl_memory (slot (board_view st s) (module_of d)))
                        (sl_last_compressed_at (slot (board_view st s) (module_of d)))
                        (S (counter_of st s (module_of d))))]> (st_boards st)).
Proof.
  unfold op_step, op_actions, extract_insights, get_or_create_memory_board, board_view.
  destruct (st_boards st !! s) as [b|] eqn:Hb; simpl.
  - change [AAddInsight ?i; ACommit; ASetCounter ?s ?m ?n; ACommit]
      with (app [AAddInsight i; ACommit; ASetCounter s m n] [ACommit]).
    rewrite exec_commit. simpl. unfold alter_slot. simpl. f_equal.
    apply map_eq. intros s'. destruct (decide (s = s')) as [->|Hne].
    + by rewrite lookup_alter_eq, lookup_insert_eq, Hb.
    + by rewrite lookup_alter_ne, lookup_insert_ne.
  - change [AAddInsight ?i; ACommit; ACreateBoard ?s; ACommit; ASetCounter ?s ?m ?n; ACommit]
      with (app [AAddInsight i; ACommit; ACreateBoard s; ACommit; ASetCounter s m n] [ACommit]).
    rewrite exec_commit. simpl. unfold alter_slot. simpl. f_equal.
    apply map_eq. intros s'. destruct (decide (s = s')) as [->|Hne].
    + by rewrite lookup_alter_eq, !lookup_insert_eq.
    + by rewrite lookup_alter_ne, !lookup_insert_ne.
Qed.

Lemma is_uncompressed_of_spec (s : nat) (m : Module) (j : Insight) :
  is_uncompressed_of s m j = true <->
  i_student j = s /\ module_of (i_data j) = m /\ i_is_compressed j = false.
Proof.
  unfold is_uncompressed_of. rewrite !andb_true_iff, !bool_decide_eq_true, negb_true_iff.
  tauto.
Qed.

Lemma uncompressed_app_other (ins : list Insight) (bs bs' : gmap nat Board) (s : nat) (m : Module)
    (i : Insight) :
  is_uncompressed_of s m i = false ->
  uncompressed (mkState (app ins [i]) bs) s m = uncompressed (mkState ins bs') s m.
Proof.
  intros Hi. unfold uncompressed. simpl. rewrite filter_app, filter_cons_False, filter_nil, app_nil_r;
    [reflexivity | congruence].
Qed.

(** A compression of [(s, m)] leaves the uncompressed rows of every other
    student and module as they are, row ids being unique. *)
Lemma compress_other_rows (st : State) (s : nat) (m : Module) (use_ai : bool)
    (call : SummarizerCall) (now : nat) (s' : nat) (m' : Module) :
  ids_unique st -> (s', m') <> (s, m) ->
  uncompressed (compress st s m use_ai call now).2 s' m' = uncompressed st s' m'.
Proof.
  intros Hids Hne.
  destruct (query_uncompressed st s m) as [|x xs] eqn:Hq.
  - by rewrite compress_nothing.
  - destruct (compress_effect st s m use_ai call now x xs Hq) as (_ & Hins & _).
    unfold uncompressed. rewrite Hins. apply filter_map_same.
    + intros j Hj Hp. unfold mark_all.
      destruct (bool_decide (module_of (i_data j) = m)) eqn:Hm; [|reflexivity].
      destruct (bool_decide (i_id j ∈ map i_id (x :: xs))) eqn:Hid; [|reflexivity].
      exfalso. apply bool_decide_eq_true in Hm, Hid.
      apply list_elem_of_In, in_map_iff in Hid as [y [Hy Hyin]].
      apply list_elem_of_In in Hyin. rewrite <- Hq, In_query in Hyin.
      destruct Hyin as [Hyst Hyu].
      assert (y = j) as ->.
      { apply (NoDup_map_inj_in i_id (module_rows st m)); [apply Hids | | | exact Hy].
        - apply list_elem_of_filter. split; [|exact Hyst].
          apply is_uncompressed_of_spec in Hyu. tauto.
        - apply list_elem_of_filter. split; done. }
      apply is_uncompressed_of_spec in Hyu as (Hs1 & Hm1 & _).
      apply is_uncompressed_of_spec in Hp as (Hs2 & Hm2 & _).
      apply Hne. congruence.
    + intros j _ Hnp. unfold mark_all. destruct (_ && _); [|exact Hnp].
      unfold is_uncompressed_of, marked. simpl. rewrite andb_false_r. discriminate.
Qed.

Lemma op_step_ids_unique (st : State) (op : Op) :
  ids_unique st -> ids_unique (op_step st op).
Proof.
  intros Hids m'. destruct op as [s [d|] now | s m | s m use_ai call now | s m | s].
  - rewrite extract_effect. unfold module_rows. simpl. rewrite filter_app, map_app.
    destruct (decide (module_of d = m')) as [Hd|Hd].
    + rewrite filter_cons_True, filter_nil by exact Hd. simpl.
      apply NoDup_app. split; [apply Hids|]. split; [|apply NoDup_singleton].
      intros k Hk Hk'. apply list_elem_of_singleton in Hk'. subst k.
      apply list_elem_of_In, in_map_iff in Hk as [j [Hj Hjin]].
      apply list_elem_of_In in Hjin. subst m'.
      pose proof (fresh_id_new st (module_of d) j Hjin). lia.
    + rewrite filter_cons_False, filter_nil, app_nil_r by exact Hd. apply Hids.
  - apply Hids.
  - unfold op_step. rewrite (proj1 (read_op_actions st s m)), get_or_create_exec. apply Hids.
  - unfold op_step, op_actions. rewrite <- compress_state_exec.
    destruct (query_uncompressed st s m) as [|x xs] eqn:Hq.
    + rewrite compress_nothing by exact Hq. apply Hids.
    + destruct (compress_effect st s m use_ai call now x xs Hq) as (_ & Hins & _).
      unfold module_rows. rewrite Hins, filter_map_data by apply mark_all_data.
      rewrite map_map. erewrite map_ext by (intros j; apply mark_all_id). apply Hids.
  - unfold op_step. rewrite (proj1 (proj2 (read_op_actions st s m))), get_or_create_exec. apply Hids.
  - unfold op_step. rewrite (proj2 (proj2 (read_op_actions st s Reading))), get_or_create_exec.
    apply Hids.
Qed.

Lemma run_ops_ids_unique (st : State) (ops : list Op) :
  ids_unique st -> ids_unique (run_ops st ops).
Proof.
  revert st. induction ops as [|op ops IH]; intros st Hids; [exact Hids|].
  unfold run_ops. simpl. apply IH, op_step_ids_unique, Hids.
Qed.

Lemma read_exec_counters (st : State) (s : nat) :
  counters_match st -> counters_match (exec st (get_or_create_memory_board st s).2).
Proof.
  intros Hc s' m'. rewrite get_or_create_exec, counter_of_insert.
  rewrite (uncompressed_boards _ _ (st_boards st)). destruct st as [ins bs].
  destruct (decide (s = s')) as [->|Hne].
  - rewrite <- counter_of_view. apply Hc.
  - apply Hc.
Qed.

Lemma op_step_counters_match (st : State) (op : Op) :
  ids_unique st -> counters_match st -> counters_match (op_step st op).
Proof.
  intros Hids Hc. destruct op as [s [d|] now | s m | s m use_ai call now | s m | s].
  - intros s' m'. rewrite extract_effect, counter_of_insert.
    set (i := mkInsight (fresh_id st (module_of d)) s now d false None).
    destruct (decide (s = s')) as [<-|Hs].
    + destruct (decide (module_of d = m')) as [<-|Hm].
      * rewrite slot_set_slot_eq. simpl.
        rewrite (uncompressed_boards _ _ (st_boards st)).
        rewrite (uncompressed_app_new st s (module_of d) i) by reflexivity.
        rewrite length_app, Hc. simpl. lia.
      * rewrite slot_set_slot_ne by exact Hm. rewrite <- counter_of_view.
        rewrite (uncompressed_app_other _ _ (st_boards st)).
        -- destruct st. apply Hc.
        -- destruct (is_uncompressed_of s m' i) eqn:E; [|reflexivity].
           apply is_uncompressed_of_spec in E. simpl in E. tauto.
    + unfold counter_of. simpl.
      rewrite (uncompressed_app_other _ _ (st_boards st)).
      * destruct st. apply Hc.
      * destruct (is_uncompressed_of s' m' i) eqn:E; [|reflexivity].
        apply is_uncompressed_of_spec in E. simpl in E. tauto.
  - exact Hc.
  - unfold op_step. rewrite (proj1 (read_op_actions st s m)). by apply read_exec_counters.
  - unfold op_step, op_actions. rewrite <- compress_state_exec.
    destruct (query_uncompressed st s m) as [|x xs] eqn:Hq.
    + rewrite compress_nothing by exact Hq. exact Hc.
    + intros s' m'.
      destruct (compress_effect st s m use_ai call now x xs Hq) as (_ & _ & Hb).
      unfold counter_of at 1. rewrite Hb.
      destruct (decide (s = s')) as [<-|Hs].
      * rewrite lookup_insert_eq. destruct (decide (m = m')) as [<-|Hm].
        -- rewrite slot_set_slot_eq, compress_exhausts. reflexivity.
        -- rewrite slot_set_slot_ne by exact Hm. rewrite <- counter_of_view, Hc.
           rewrite compress_other_rows; [reflexivity | exact Hids | congruence].
      * rewrite lookup_insert_ne by exact Hs. fold (counter_of st s' m'). rewrite Hc.
        rewrite compress_other_rows; [reflexivity | exact Hids | congruence].
  - unfold op_step. rewrite (proj1 (proj2 (read_op_actions st s m))). by apply read_exec_counters.
  - unfold op_step. rewrite (proj2 (proj2 (read_op_actions st s Reading))).
    by apply read_exec_counters.
Qed.

Lemma filter_all_true {A} (P : A -> Prop) `{forall x, Decision (P x)} (l : list A) :
  Forall P l -> filter P l = l.
Proof.
  induction 1 as [|x l Hx Hl IH]; [reflexivity|].
  rewrite filter_cons_True by exact Hx. by rewrite IH.
Qed.

Lemma filter_ext_in {A} (P Q : A -> Prop) `{forall x, Decision (P x)} `{forall x, Decision (Q x)}
    (l : list A) :
  Forall (fun x => P x <-> Q x) l -> filter P l = filter Q l.
Proof.
  induction 1 as [|x l Hx Hl IH]; [reflexivity|].
  rewrite !filter_cons. destruct (decide (P x)), (decide (Q x)); try tauto; by rewrite IH.
Qed.

(** Every entry of a chronic list with a priority field carries the
    priority of its frequency. *)
Lemma chronic_priorities (min_freq h : nat) (scored : bool) (g : list (string * list Obs)) :
  Forall (fun e => e_priority e = Some (priority_of h (e_frequency e)))
         (chronic min_freq (Some h) scored g).
Proof.
  unfold chronic. apply Forall_map, Forall_forall. intros kx _. reflexivity.
Qed.

Lemma priority_of_cases (h n : nat) :
  priority_of h n = "high" /\ h <= n \/ priority_of h n = "medium" /\ n < h.
Proof.
  unfold priority_of. destruct (decide (h <= n)) as [Hn|Hn].
  - rewrite bool_decide_eq_true_2 by exact Hn. tauto.
  - rewrite bool_decide_eq_false_2 by exact Hn. right. split; [reflexivity | lia].
Qed.

(** ** Extra properties of the stateful service *)

(** Extra. When every [<m>_sessions_since_compression] counter equals the
    number of uncompressed insights of its student and module (and row ids
    are unique), this stays so under every sequence of service calls
    (extractions add one to both, a compression sets both to 0, the read
    calls change neither); so [should_compress_<m>_memory] answers true
    exactly when the stored counter has reached 5. *)
Theorem counters_track_uncompressed (st : State) (ops : list Op)
    (Hids : ids_unique st) (Hc : counters_match st) :
  counters_match (run_ops st ops) /\
  forall s m, (should_compress (run_ops st ops) s m).1
              = bool_decide (COMPRESSION_THRESHOLD <= counter_of (run_ops st ops) s m).
Proof.
  assert (Hm : counters_match (run_ops st ops)).
  { revert st Hids Hc. induction ops as [|op ops IH]; intros st Hids Hc; [exact Hc|].
    unfold run_ops. simpl. apply IH.
    - apply op_step_ids_unique, Hids.
    - apply op_step_counters_match; assumption. }
  split; [exact Hm|]. intros s m.
  unfold should_compress. destruct (get_or_create_memory_board _ s). simpl.
  by rewrite Hm.
Qed.

Lemma counters_track_uncompressed_witness :
  counters_match (run_ops (mkState [] ∅)
                    [OExtract 1 (Some empty_speaking) 1; OExtract 1 (Some empty_speaking) 2;
                     OShouldCompress 1 Speaking]).
Proof.
  apply (counters_track_uncompressed (mkState [] ∅)).
  - intros m. constructor.
  - intros s m. reflexivity.
Defined.

(** Extra. Right after a compression that returned a payload, reading the
    module's memory returns that payload and writes nothing, the counter is
    0, and [should_compress] answers false without writing. *)
Theorem compress_then_read (st : State) (s : nat) (m : Module) (use_ai : bool)
    (call : SummarizerCall) (now : nat) (p : Payload)
    (Hp : (compress st s m use_ai call now).1 = Some p) :
  get_memory (compress st s m use_ai call now).2 s m = (Some p, []) /\
  should_compress (compress st s m use_ai call now).2 s m = (false, []) /\
  counter_of (compress st s m use_ai call now).2 s m = 0.
Proof.
  destruct (query_uncompressed st s m) as [|x xs] eqn:Hq.
  - rewrite compress_nothing in Hp by exact Hq. discriminate.
  - destruct (compress_effect st s m use_ai call now x xs Hq) as (H1 & _ & Hb).
    rewrite H1 in Hp. injection Hp as <-.
    unfold get_memory, should_compress, get_or_create_memory_board, counter_of.
    rewrite Hb, lookup_insert_eq, slot_set_slot_eq, compress_exhausts. simpl.
    repeat split.
Qed.

Lemma compress_then_read_witness :
  get_memory (compress one_speaking_state 3 Speaking false CallRaises 5).2 3 Speaking
  = (Some (mkPayload (BSpeaking [] [] []) 1 5 None), []).
Proof.
  apply (compress_then_read one_speaking_state 3 Speaking false CallRaises 5).
  vm_compute. reflexivity.
Defined.

(** Extra. After a Reading compression, [get_adaptive_question_focus]
    writes nothing and returns: as challenge words the first 5 words of the
    stored [vocabulary_gaps] (every stored gap has priority high or
    medium), as question types the stored comprehension skills of frequency
    at least 3 (or [inference, main_idea, detail] when there is none),
    difficulty "advanced" iff fewer than 3 vocabulary gaps are stored, and
    the stored summary. *)
Theorem reading_hints_after_compression (st : State) (s : nat) (use_ai : bool)
    (call : SummarizerCall) (now : nat) (p : Payload)
    (Hp : (compress st s Reading use_ai call now).1 = Some p) :
  (get_adaptive_question_focus (compress st s Reading use_ai call now).2 s).2 = [] /\
  (get_adaptive_question_focus (compress st s Reading use_ai call now).2 s).1
  = mkHints [] (firstn 5 (map e_key (vocabulary_gaps_of p)))
      (match map e_key (filter (fun e => 3 <= e_frequency e) (comprehension_weaknesses_of p)) with
       | [] => ["inference"; "main_idea"; "detail"]
       | l => l
       end)
      (if bool_decide (length (vocabulary_gaps_of p) < 3) then "advanced" else "intermediate")
      (Some (p_summary p)).
Proof.
  destruct (query_uncompressed st s Reading) as [|x xs] eqn:Hq.
  - rewrite compress_nothing in Hp by exact Hq. discriminate.
  - destruct (compress_effect st s Reading use_ai call now x xs Hq) as (H1 & _ & Hb).
    assert (Hpeq : mkPayload (build_body Reading (map i_data (x :: xs))) (length (x :: xs)) now
                     (summary_of Reading (length (x :: xs)) use_ai call) = p) by congruence.
    rewrite Hpeq in Hb.
    assert (Hv : Forall (fun e => is_high_or_medium e = true) (vocabulary_gaps_of p)).
    { rewrite <- Hpeq. unfold vocabulary_gaps_of. simpl. unfold top10. apply Forall_take.
      eapply Forall_impl; [apply chronic_priorities|]. intros e He.
      unfold is_high_or_medium. rewrite He.
      destruct (priority_of_cases 3 (e_frequency e)) as [[-> _]|[-> _]]; reflexivity. }
    assert (Hc : Forall (fun e => is_high e = true <-> 3 <= e_frequency e)
                        (comprehension_weaknesses_of p)).
    { rewrite <- Hpeq. unfold comprehension_weaknesses_of. simpl.
      eapply Forall_impl; [apply chronic_priorities|]. intros e He.
      unfold is_high. rewrite He.
      destruct (priority_of_cases 3 (e_frequency e)) as [[-> ?]|[-> ?]].
      - rewrite bool_decide_eq_true_2 by reflexivity. tauto.
      - rewrite bool_decide_eq_false_2 by congruence. split; [discriminate | lia]. }
    unfold get_adaptive_question_focus, get_memory, get_or_create_memory_board.
    rewrite Hb, lookup_insert_eq, slot_set_slot_eq. cbn [sl_memory fst snd].
    split; [reflexivity|].
    rewrite (filter_all_true _ _ Hv).
    rewrite (filter_ext_in (fun e => is_high e = true) (fun e => 3 <= e_frequency e) _ Hc).
    by destruct (map e_key (filter _ (comprehension_weaknesses_of p))).
Qed.

Definition one_reading_state : State :=
  mkState [mkInsight 1 3 1 (RD (mkReadingObs [mkObs "gist" 0 ""] ["inference"] false 90)) false None] ∅.

Lemma reading_hints_after_compression_witness :
  (get_adaptive_question_focus (compress one_reading_state 3 Reading false CallRaises 5).2 3).1
  = mkHints [] [] ["inference"; "main_idea"; "detail"] "advanced" (Some None).
Proof.
  destruct (reading_hints_after_compression one_reading_state 3 false CallRaises 5
              (mkPayload (BReading [] [mkEntry "inference" 1 None (Some "medium")] false false) 1 5 None))
    as [_ H].
  - vm_compute. reflexivity.
  - rewrite H. vm_compute. reflexivity.
Defined.

(* ================================================================= *)
(** ** Extraction of a finished session ([extract_*_session_insights]) *)

(** *** Speaking ([extract_speaking_session_insights]) *)

(** An element of [word_level_analysis["words"][i]["phonemes"]]: a dict,
    given by the values of its "phoneme" and "accuracy_score" keys
    ([None]: key absent), or a value that is not a dict. *)
Inductive PhonemeItem :=
  | PhDict (phoneme : option string) (accuracy_score : option Z)
  | PhNotDict.

(** The value under "phonemes": a list, or another JSON value. *)
Inductive PhonemesValue :=
  | PhList (ps : list PhonemeItem)
  | PhNotList.

(** An element of [word_level_analysis["words"]]. Scores are taken as
    integers here; the stored scores may be floats, and the thresholds
    (below 70, below 60) are compared the same way. *)
Inductive WordItem :=
  | WDict (word : option string) (accuracy_score : option Z)
          (error_type : option string) (phonemes : option PhonemesValue)
  | WNotDict.

(** [session.word_level_analysis or {}] as seen by
    [isinstance(word_analysis, dict) and 'words' in word_analysis]. *)
Inductive WordLevelAnalysis :=
  | WLWords (ws : list WordItem)
  | WLNoWords.

(** The columns of the [SpeakingSession] row that the extraction reads
    ([None]: NULL). *)
Record SpeakingSessionRow := mkSpeakingSessionRow {
  sp_word_level_analysis : WordLevelAnalysis;
  sp_fluency_score : option Z;
  sp_pause_count : option Z;
  sp_filler_word_count : option Z
}.

(** [if isinstance(phoneme, dict) and phoneme.get('accuracy_score', 100) < 60:
    phoneme_errors.append({"phoneme": phoneme.get('phoneme', ''),
                           "accuracy": phoneme.get('accuracy_score', 0)})] *)
Definition phoneme_step (phoneme_errors : list Obs) (p : PhonemeItem) : list Obs :=
  match p with
  | PhDict ph a =>
      if bool_decide (default 100%Z a < 60)%Z
      then app phoneme_errors [mkObs (default "" ph) (default 0%Z a) ""]
      else phoneme_errors
  | PhNotDict => phoneme_errors
  end.

(** One pass of [for word_data in word_analysis.get('words', [])] on the
    pair [(mispronounced_words, phoneme_errors)]. The record's
    "error_type" is kept in [o_example]; no [compress_*] reads it. *)
Definition word_step (acc : list Obs * list Obs) (w : WordItem) : list Obs * list Obs :=
  match w with
  | WDict word a et phs =>
      let accuracy := default 100%Z a in
      let mispronounced_words :=
        if bool_decide (accuracy < 70)%Z
        then app acc.1 [mkObs (default "" word) accuracy (default "unknown" et)]
        else acc.1 in
      let phoneme_errors :=
        match default (PhList []) phs with
        | PhList ps => fold_left phoneme_step ps acc.2
        | PhNotList => acc.2
        end in
      (mispronounced_words, phoneme_errors)
  | WNotDict => acc
  end.

(** [v and p(v)] on a nullable numeric column. *)
Definition truthy_and (v : option Z) (p : Z -> bool) : bool :=
  match v with Some x => bool_decide (x <> 0)%Z && p x | None => false end.

Definition speaking_fluency_problems (r : SpeakingSessionRow) : list string :=
  let l1 := if truthy_and (sp_fluency_score r) (fun x => bool_decide (x < 70)%Z)
            then ["low_fluency"] else [] in
  let l2 := if truthy_and (sp_pause_count r) (fun x => bool_decide (5 < x)%Z)
            then app l1 ["excessive_pauses"] else l1 in
  if truthy_and (sp_filler_word_count r) (fun x => bool_decide (3 < x)%Z)
  then app l2 ["filler_words"] else l2.

(** The fields of the new [SpeakingMemoryInsight] that [compress_speaking_memory]
    reads ([chronic_words] is computed from older sessions but never stored). *)
Definition extract_speaking (r : SpeakingSessionRow) : SpeakingObs :=
  let '(mispronounced_words, phoneme_errors) :=
    match sp_word_level_analysis r with
    | WLWords ws => fold_left word_step ws ([], [])
    | WLNoWords => ([], [])
    end in
  mkSpeakingObs (firstn 20 mispronounced_words) (firstn 20 phoneme_errors)
    (speaking_fluency_problems r).

(** *** Listening ([extract_listening_session_insights]) *)

(** An element of [session_data['detailed_results']]: the truth value of
    [result.get('is_correct')] and [result.get('question', '')]. *)
Record ListeningResult := mkListeningResult {
  lr_is_correct : bool;
  lr_question : string
}.

Record ListeningSessionRow := mkListeningSessionRow {
  ls_detailed_results : list ListeningResult;
  ls_performance_score : option Z
}.

(** [needle in hay] on strings. *)
Fixpoint str_contains (needle hay : string) : bool :=
  String.prefix needle hay ||
  match hay with EmptyString => false | String _ hay' => str_contains needle hay' end.

(** The classification of an incorrectly answered question. *)
Definition question_type (question : string) : string :=
  let question_text := lower question in
  if str_contains "main idea" question_text || str_contains "primarily about" question_text
  then "main_idea"
  else if str_contains "detail" question_text || str_contains "mentioned" question_text
  then "detail"
  else if str_contains "infer" question_text || str_contains "imply" question_text
          || str_contains "suggest" question_text
  then "inference"
  else "general".

(** [question_types_struggled] before [list(set(..))]. *)
Definition listening_question_types (r : ListeningSessionRow) : list string :=
  fold_left (fun acc res =>
    if lr_is_correct res then acc else app acc [question_type (lr_question res)])
    (ls_detailed_results r) [].

(** [set_list] is [list(set(..))]: the same elements without repetition,
    in an iteration order the code does not fix. *)
Definition extract_listening (set_list : list string -> list string)
    (r : ListeningSessionRow) : ListeningObs :=
  mkListeningObs (set_list (listening_question_types r))
    (bool_decide (default 0%Z (ls_performance_score r) < 50)%Z).

(** *** Reading ([extract_reading_session_insights]) *)

(** A [VocabularyInteraction] row of the session. *)
Record VocabInteraction := mkVocabInteraction {
  vi_word : string;
  vi_difficulty_level : option Z;
  vi_looked_up_count : option Z
}.

(** The rows the extraction reads: the session's vocabulary interactions,
    the truth value of [is_correct] of each [ReadingResponse], and the
    nullable [words_per_minute] and [reading_completion_percentage]. *)
Record ReadingSessionRow := mkReadingSessionRow {
  rs_vocab_interactions : list VocabInteraction;
  rs_responses_correct : list bool;
  rs_words_per_minute : option Z;
  rs_reading_completion_percentage : option Z
}.

(** [question_types_struggled] before [list(set(..))]: one placeholder
    "inference" per incorrect response. *)
Definition reading_question_types (r : ReadingSessionRow) : list string :=
  fold_left (fun acc (is_correct : bool) =>
    if is_correct then acc else app acc ["inference"]) (rs_responses_correct r) [].

(** The fields of the new [ReadingMemoryInsight] that
    [compress_reading_memory] reads. *)
Definition extract_reading (set_list : list string -> list string)
    (r : ReadingSessionRow) : ReadingObs :=
  mkReadingObs
    (map (fun vi => mkObs (vi_word vi) 0 "") (rs_vocab_interactions r))
    (set_list (reading_question_types r))
    (truthy_and (rs_words_per_minute r) (fun x => bool_decide (x < 100)%Z))
    (default 0%Z (rs_reading_completion_percentage r)).

(** ** Lemmas on the extraction *)

Lemma fold_left_inv {A B} (f : A -> B -> A) (P : A -> Prop) (l : list B) (a : A) :
  P a -> (forall a b, P a -> P (f a b)) -> P (fold_left f l a).
Proof. revert a. induction l as [|b l IH]; simpl; auto. Qed.

Lemma phoneme_step_bound (acc : list Obs) (p : PhonemeItem) :
  Forall (fun o => o_score o < 60)%Z acc ->
  Forall (fun o => o_score o < 60)%Z (phoneme_step acc p).
Proof.
  destruct p as [ph a|]; simpl; [|done].
  case_bool_decide as Ha; [|done].
  intros H. apply Forall_app. split; [done|].
  constructor; [|constructor]. simpl. destruct a; simpl in *; lia.
Qed.

Lemma word_step_bound (acc : list Obs * list Obs) (w : WordItem) :
  Forall (fun o => o_score o < 70)%Z acc.1 /\ Forall (fun o => o_score o < 60)%Z acc.2 ->
  Forall (fun o => o_score o < 70)%Z (word_step acc w).1 /\
  Forall (fun o => o_score o < 60)%Z (word_step acc w).2.
Proof.
  destruct w as [word a et phs|]; simpl; [|done].
  intros [H1 H2]. split.
  - case_bool_decide as Ha; [|done].
    apply Forall_app. split; [done|]. constructor; [done|constructor].
  - destruct (default (PhList []) phs) as [ps|]; [|done].
    apply fold_left_inv; [done|]. intros. by apply phoneme_step_bound.
Qed.

Lemma extract_speaking_bounds (r : SpeakingSessionRow) :
  Forall (fun o => o_score o < 70)%Z (s_mispronounced_words (extract_speaking r)) /\
  Forall (fun o => o_score o < 60)%Z (s_phoneme_errors (extract_speaking r)).
Proof.
  unfold extract_speaking.
  assert (H : Forall (fun o => o_score o < 70)%Z
                (match sp_word_level_analysis r with
                 | WLWords ws => fold_left word_step ws ([], []) | WLNoWords => ([], []) end).1 /\
              Forall (fun o => o_score o < 60)%Z
                (match sp_word_level_analysis r with
                 | WLWords ws => fold_left word_step ws ([], []) | WLNoWords => ([], []) end).2).
  { destruct (sp_word_level_analysis r) as [ws|]; [|split; constructor].
    apply fold_left_inv; [split; constructor|]. intros. by apply word_step_bound. }
  destruct (match sp_word_level_analysis r with
            | WLWords ws => fold_left word_step ws ([], []) | WLNoWords => ([], []) end)
    as [mis pe]. simpl in *.
  destruct H. split; by apply Forall_take.
Qed.

Lemma sum_lt (zs : list Z) (c : Z) :
  zs <> [] -> Forall (fun z => z < c)%Z zs ->
  (fold_right Z.add 0 zs < c * Z.of_nat (length zs))%Z.
Proof.
  induction zs as [|z zs IH]; [done|]. intros _ H. inversion H as [|? ? Hz Hzs]; subst.
  destruct zs as [|z' zs'].
  - simpl. lia.
  - specialize (IH ltac:(discriminate) Hzs).
    change (length (z :: z' :: zs')) with (S (length (z' :: zs'))).
    simpl fold_right in *. rewrite Nat2Z.inj_succ. lia.
Qed.

Lemma mean_lt (zs : list Z) (c : Z) :
  zs <> [] -> Forall (fun z => z < c)%Z zs -> (mean zs < inject_Z c)%Q.
Proof.
  intros Hne H. unfold mean. rewrite Qred_correct.
  apply Qlt_shift_div_r.
  - destruct zs; [done|]. unfold Qlt. simpl. lia.
  - rewrite <- inject_Z_mult. unfold Qlt. simpl.
    pose proof (sum_lt zs c Hne H). lia.
Qed.

Lemma aggregate_avg_bound (key : Obs -> string) (skip_empty : bool) (min_freq : nat)
    (high_at : option nat) (xs : list Obs) (c : Z) :
  Forall (fun o => o_score o < c)%Z xs ->
  Forall (fun e => exists a, e_avg e = Some a /\ (a < inject_Z c)%Q)
    (aggregate key skip_empty min_freq high_at true xs).
Proof.
  intros H. apply Forall_forall. intros e He.
  apply elem_of_aggregate in He as (k & _ & Hne & _ & ->). simpl.
  eexists. split; [reflexivity|]. apply mean_lt.
  - destruct (filter _ xs); [done|discriminate].
  - apply Forall_map, Forall_forall. intros o Ho.
    apply list_elem_of_filter in Ho as [_ Ho]. exact (proj1 (Forall_forall _ _) H o Ho).
Qed.

Lemma omap_speaking_extract (rs : list SpeakingSessionRow) :
  omap speaking_obs (map (fun r => SD (extract_speaking r)) rs) = map extract_speaking rs.
Proof.
  induction rs as [|r rs IH]; [done|]. simpl. f_equal. exact IH.
Qed.

(** [word_analysis.get('words', [])] when the guard holds, else nothing. *)
Definition words_of (w : WordLevelAnalysis) : list WordItem :=
  match w with WLWords ws => ws | WLNoWords => [] end.

Lemma fold_left_inv_in {A B} (f : A -> B -> A) (P : A -> Prop) (l : list B) (a : A) :
  P a -> (forall a b, b ∈ l -> P a -> P (f a b)) -> P (fold_left f l a).
Proof.
  revert a. induction l as [|b l IH]; intros a Ha Hf; simpl; [done|].
  apply IH.
  - apply Hf; [by left|done].
  - intros a' b' Hb. apply Hf. by right.
Qed.

(** Where a kept word record comes from. *)
Definition kept_word (ws : list WordItem) (o : Obs) : Prop :=
  exists word a et phs, WDict word (Some a) et phs ∈ ws /\ (a < 70)%Z /\
    o = mkObs (default "" word) a (default "unknown" et).

(** Where a kept phoneme record comes from. *)
Definition kept_phoneme (ws : list WordItem) (o : Obs) : Prop :=
  exists word a et ps ph pa, WDict word a et (Some (PhList ps)) ∈ ws /\
    PhDict ph (Some pa) ∈ ps /\ (pa < 60)%Z /\ o = mkObs (default "" ph) pa "".

Lemma word_step_kept (ws : list WordItem) (acc : list Obs * list Obs) (w : WordItem) :
  w ∈ ws ->
  Forall (kept_word ws) acc.1 /\ Forall (kept_phoneme ws) acc.2 ->
  Forall (kept_word ws) (word_step acc w).1 /\ Forall (kept_phoneme ws) (word_step acc w).2.
Proof.
  intros Hw [H1 H2]. destruct w as [word a et phs|]; simpl; [|done]. split.
  - case_bool_decide as Ha; [|done].
    apply Forall_app. split; [done|]. constructor; [|constructor].
    destruct a as [a|]; simpl in Ha; [|lia].
    exists word, a, et, phs. done.
  - destruct phs as [[ps|]|]; simpl; [|done|done].
    apply fold_left_inv_in; [done|]. intros acc' p Hp H.
    destruct p as [ph pa|]; simpl; [|done].
    case_bool_decide as Hpa; [|done].
    apply Forall_app. split; [done|]. constructor; [|constructor].
    destruct pa as [pa|]; simpl in Hpa; [|lia].
    exists word, a, et, ps, ph, pa. done.
Qed.

Lemma extract_speaking_kept (r : SpeakingSessionRow) :
  Forall (kept_word (words_of (sp_word_level_analysis r))) (s_mispronounced_words (extract_speaking r)) /\
  Forall (kept_phoneme (words_of (sp_word_level_analysis r))) (s_phoneme_errors (extract_speaking r)).
Proof.
  unfold extract_speaking.
  destruct (sp_word_level_analysis r) as [ws|]; simpl; [|split; constructor].
  assert (H : Forall (kept_word ws) (fold_left word_step ws ([], [])).1 /\
              Forall (kept_phoneme ws) (fold_left word_step ws ([], [])).2).
  { apply fold_left_inv_in; [split; constructor|]. intros. by apply word_step_kept. }
  destruct (fold_left word_step ws ([], [])) as [mis pe]. simpl in *.
  destruct H. split; by apply Forall_take.
Qed.

(** Extra. The Speaking extraction keeps a word record only for a dict of
    [word_level_analysis["words"]] with an "accuracy_score" below 70, as
    [{word, accuracy, error_type}], and a phoneme record only for a dict in
    the "phonemes" list of such a word dict with an "accuracy_score" below
    60, as [{phoneme, accuracy}]: an item without a score counts as 100 and
    is never kept.  Over sessions so recorded, every entry of
    [chronic_pronunciation_errors] built by [compress_speaking_memory] has
    an average accuracy below 70, and every [problem_phonemes] entry one
    below 60. *)
Theorem speaking_memory_accuracies (rs : list SpeakingSessionRow) :
  Forall (fun r =>
    Forall (fun o => exists word a et phs,
              WDict word (Some a) et phs ∈ words_of (sp_word_level_analysis r) /\ (a < 70)%Z /\
              o = mkObs (default "" word) a (default "unknown" et))
      (s_mispronounced_words (extract_speaking r)) /\
    Forall (fun o => exists word a et ps ph pa,
              WDict word a et (Some (PhList ps)) ∈ words_of (sp_word_level_analysis r) /\
              PhDict ph (Some pa) ∈ ps /\ (pa < 60)%Z /\ o = mkObs (default "" ph) pa "")
      (s_phoneme_errors (extract_speaking r))) rs /\
  match build_body Speaking (map (fun r => SD (extract_speaking r)) rs) with
  | BSpeaking chronic_pronunciation_errors problem_phonemes _ =>
      Forall (fun e => exists a, e_avg e = Some a /\ (a < 70)%Q) chronic_pronunciation_errors /\
      Forall (fun e => exists a, e_avg e = Some a /\ (a < 60)%Q) problem_phonemes
  | _ => False
  end.
Proof.
  split.
  - apply Forall_forall. intros r _. apply extract_speaking_kept.
  - cbv beta iota delta [build_body speaking_body]. rewrite omap_speaking_extract.
    unfold speaking_chronic_words, top10.
    split; apply Forall_take;
      [apply (aggregate_avg_bound _ _ _ _ _ 70) | apply (aggregate_avg_bound _ _ _ _ _ 60)];
      apply Forall_concat, Forall_map, Forall_map, Forall_forall; intros r _;
      apply extract_speaking_bounds.
Qed.

Definition question_labels : list string := ["main_idea"; "detail"; "inference"; "general"].

Lemma question_type_label (q : string) : question_type q ∈ question_labels.
Proof.
  unfold question_type, question_labels.
  repeat case_match; set_solver.
Qed.

Lemma listening_question_types_labels (r : ListeningSessionRow) :
  Forall (fun k => k ∈ question_labels) (listening_question_types r).
Proof.
  unfold listening_question_types. apply fold_left_inv; [constructor|].
  intros acc res H. destruct (lr_is_correct res); [done|].
  apply Forall_app. split; [done|]. constructor; [apply question_type_label|constructor].
Qed.

Lemma count_obs_of_strings (k : string) (l : list string) :
  length (filter (fun o => o_key o = k) (obs_of_strings l)) = length (filter (fun s => s = k) l).
Proof.
  induction l as [|s l IH]; [done|]. unfold obs_of_strings in *. simpl map.
  destruct (decide (s = k)).
  - rewrite !filter_cons_True by done. simpl. by rewrite IH.
  - rewrite !filter_cons_False by done. done.
Qed.

Lemma count_NoDup (k : string) (l : list string) :
  NoDup l -> length (filter (fun s => s = k) l) = if decide (k ∈ l) then 1 else 0.
Proof.
  induction l as [|s l IH]; intros Hnd; [done|].
  apply NoDup_cons in Hnd as [Hs Hnd].
  destruct (decide (s = k)) as [->|Hsk].
  - rewrite filter_cons_True by done. simpl. rewrite IH by done.
    rewrite decide_False by done. rewrite decide_True by set_solver. done.
  - rewrite filter_cons_False by done. rewrite IH by done.
    destruct (decide (k ∈ l)); rewrite ?decide_True, ?decide_False by set_solver; done.
Qed.

Lemma count_set_list (set_list : list string -> list string)
    (Hset : forall xs, set_list xs ≡ₚ remove_dups xs) (k : string) (l : list string) :
  length (filter (fun s => s = k) (set_list l)) = if decide (k ∈ l) then 1 else 0.
Proof.
  rewrite (Hset l). rewrite count_NoDup by apply NoDup_remove_dups.
  destruct (decide (k ∈ remove_dups l)) as [H|H]; rewrite elem_of_remove_dups in H;
    [rewrite decide_True | rewrite decide_False]; done.
Qed.

Lemma count_concat_set_list {R} (set_list : list string -> list string)
    (Hset : forall xs, set_list xs ≡ₚ remove_dups xs) (types : R -> list string)
    (k : string) (rs : list R) :
  length (filter (fun s => s = k) (concat (map (fun r => set_list (types r)) rs)))
  = length (filter (fun r => k ∈ types r) rs).
Proof.
  induction rs as [|r rs IH]; [done|]. simpl.
  rewrite filter_app, length_app, IH, (count_set_list set_list Hset).
  destruct (decide (k ∈ types r)).
  - rewrite filter_cons_True by done. done.
  - rewrite filter_cons_False by done. done.
Qed.

Lemma omap_listening_extract (set_list : list string -> list string) (rs : list ListeningSessionRow) :
  omap listening_obs (map (fun r => LD (extract_listening set_list r)) rs)
  = map (extract_listening set_list) rs.
Proof. induction rs as [|r rs IH]; [done|]. simpl. f_equal. exact IH. Qed.

(** Extra. Over sessions recorded by the Listening extraction, the
    comprehension weaknesses built by [compress_listening_memory] are one
    entry per question type missed in at least one session, with key one
    of main_idea, detail, inference, general; its frequency is the number
    of sessions in which some question of that type was answered wrong
    (not the number of wrong answers), and its priority is high iff that
    number is at least 3. *)
Theorem listening_weaknesses_count_sessions (set_list : list string -> list string)
    (Hset : forall xs, set_list xs ≡ₚ remove_dups xs) (rs : list ListeningSessionRow) :
  match build_body Listening (map (fun r => LD (extract_listening set_list r)) rs) with
  | BListening comprehension_weaknesses _ =>
      forall e, e ∈ comprehension_weaknesses <->
        exists k, let n := length (filter (fun r => k ∈ listening_question_types r) rs) in
          k ∈ question_labels /\ 0 < n /\ e = mkEntry k n None (Some (priority_of 3 n))
  | _ => False
  end.
Proof.
  cbv beta iota delta [build_body listening_body]. rewrite omap_listening_extract.
  rewrite map_map.
  set (xs := obs_of_strings (concat (map (fun x => l_question_types_struggled (extract_listening set_list x)) rs))).
  assert (Hcount : forall k, length (filter (fun o => o_key o = k) xs)
                             = length (filter (fun r => k ∈ listening_question_types r) rs)).
  { intros k. unfold xs. rewrite count_obs_of_strings.
    apply (count_concat_set_list set_list Hset listening_question_types). }
  intros e. rewrite elem_of_aggregate. cbv zeta. split.
  - intros (k & _ & Hne & _ & ->). exists k. rewrite !Hcount.
    destruct (filter (fun o => o_key o = k) xs) as [|o l] eqn:Hf; [done|].
    assert (Ho : o ∈ filter (fun o => o_key o = k) xs) by (rewrite Hf; set_solver).
    apply list_elem_of_filter in Ho as [<- Ho].
    unfold xs, obs_of_strings in Ho. apply list_elem_of_fmap in Ho as [s [-> Hs]].
    apply list_elem_of_In in Hs. apply in_concat in Hs as [l' [Hl Hs]].
    apply in_map_iff in Hl as [r [<- Hr]]. apply list_elem_of_In in Hs.
    simpl in Hs. rewrite (Hset _), elem_of_remove_dups in Hs.
    split; [|split].
    + exact (proj1 (Forall_forall _ _) (listening_question_types_labels r) _ Hs).
    + rewrite <- Hcount, Hf. simpl. lia.
    + reflexivity.
  - intros (k & _ & Hn & ->). exists k. split; [done|].
    rewrite Hcount. split; [|split].
    + intros Hf. assert (H0 : length (filter (fun o => o_key o = k) xs) = 0) by (by rewrite Hf).
      rewrite Hcount in H0. lia.
    + lia.
    + reflexivity.
Qed.

Lemma reading_question_types_replicate (r : ReadingSessionRow) :
  reading_question_types r
  = replicate (length (filter (fun b => b = false) (rs_responses_correct r))) "inference".
Proof.
  unfold reading_question_types.
  assert (H : forall l acc, fold_left (fun acc (is_correct : bool) =>
                 if is_correct then acc else app acc ["inference"]) l acc
               = app acc (replicate (length (filter (fun b => b = false) l)) "inference")).
  { induction l as [|b l IH]; intros acc; simpl.
    - by rewrite app_nil_r.
    - destruct b.
      + rewrite filter_cons_False by done. apply IH.
      + rewrite filter_cons_True by done. rewrite IH. simpl. by rewrite <- app_assoc. }
  apply H.
Qed.

Lemma remove_dups_cons_in (x : string) (l : list string) :
  x ∈ l -> remove_dups (x :: l) = remove_dups l.
Proof. intros H. simpl. destruct (decide_rel _ _ _); [done|contradiction]. Qed.

Lemma remove_dups_replicate (n : nat) (x : string) :
  remove_dups (replicate n x) = if decide (n = 0) then [] else [x].
Proof.
  induction n as [|n IH]; [done|].
  destruct n as [|m]; [done|].
  change (replicate (S (S m)) x) with (x :: replicate (S m) x).
  rewrite remove_dups_cons_in by (simpl; set_solver). exact IH.
Qed.

Lemma count_false_zero (l : list bool) :
  length (filter (fun b => b = false) l) = 0 <-> false ∉ l.
Proof.
  induction l as [|b l IH]; simpl.
  - split; [set_solver|done].
  - destruct b.
    + rewrite filter_cons_False by done. rewrite IH. set_solver.
    + rewrite filter_cons_True by done. simpl. split; [lia|set_solver].
Qed.

Lemma set_list_reading (set_list : list string -> list string)
    (Hset : forall xs, set_list xs ≡ₚ remove_dups xs) (r : ReadingSessionRow) :
  set_list (reading_question_types r)
  = if decide (false ∈ rs_responses_correct r) then ["inference"] else [].
Proof.
  pose proof (Hset (reading_question_types r)) as Hp.
  rewrite reading_question_types_replicate, remove_dups_replicate in Hp.
  rewrite <- reading_question_types_replicate in Hp.
  pose proof (count_false_zero (rs_responses_correct r)) as Hc.
  destruct (decide (length (filter (fun b => b = false) (rs_responses_correct r)) = 0)) as [H0|H0].
  - rewrite decide_False by tauto. by apply Permutation_nil_r in Hp.
  - rewrite decide_True by (destruct (decide (false ∈ rs_responses_correct r)); tauto).
    apply Permutation_sym, Permutation_length_1_inv in Hp. exact Hp.
Qed.

Lemma concat_set_list_reading (set_list : list string -> list string)
    (Hset : forall xs, set_list xs ≡ₚ remove_dups xs) (rs : list ReadingSessionRow) :
  concat (map (fun r => r_question_types_struggled (extract_reading set_list r)) rs)
  = replicate (length (filter (fun r => false ∈ rs_responses_correct r) rs)) "inference".
Proof.
  induction rs as [|r rs IH]; [done|]. cbn [map concat]. rewrite IH.
  cbn [r_question_types_struggled extract_reading]. rewrite (set_list_reading set_list Hset).
  destruct (decide (false ∈ rs_responses_correct r)).
  - rewrite filter_cons_True by done. done.
  - rewrite filter_cons_False by done. done.
Qed.

Lemma group_by_replicate (o : Obs) (n : nat) (l : list Obs) :
  fold_left (fun g x => if false && bool_decide (o_key x = "") then g else group_add (o_key x) x g)
    (replicate n o) [(o_key o, l)]
  = [(o_key o, app l (replicate n o))].
Proof.
  revert l. induction n as [|n IH]; intros l; simpl.
  - by rewrite app_nil_r.
  - rewrite bool_decide_true by done. rewrite IH. by rewrite <- app_assoc.
Qed.

Lemma aggregate_replicate (s : string) (n : nat) :
  aggregate o_key false 0 (Some 3) false (obs_of_strings (replicate n s))
  = if decide (n = 0) then [] else [mkEntry s n None (Some (priority_of 3 n))].
Proof.
  unfold obs_of_strings. assert (Hm : forall k, map obs_of_string (replicate k s) = replicate k (obs_of_string s))
    by (intros k; induction k; simpl; congruence).
  rewrite Hm.
  destruct n as [|n]; [done|].
  unfold aggregate, group_by. simpl.
  change s with (o_key (obs_of_string s)) at 1.
  rewrite group_by_replicate. simpl. unfold chronic. rewrite filter_cons_True by (apply Is_true_bool_decide; lia).
  simpl. rewrite length_replicate. done.
Qed.

Lemma omap_reading_extract (set_list : list string -> list string) (rs : list ReadingSessionRow) :
  omap reading_obs (map (fun r => RD (extract_reading set_list r)) rs)
  = map (extract_reading set_list) rs.
Proof. induction rs as [|r rs IH]; [done|]. simpl. f_equal. exact IH. Qed.

(** Extra. Over sessions recorded by the Reading extraction, the
    comprehension weaknesses built by [compress_reading_memory] are empty
    when no session has a wrong answer, and otherwise the single entry
    "inference" whose frequency is the number of sessions with at least one
    wrong answer: every wrong answer is recorded as the placeholder type
    "inference". *)
Theorem reading_weaknesses_only_inference (set_list : list string -> list string)
    (Hset : forall xs, set_list xs ≡ₚ remove_dups xs) (rs : list ReadingSessionRow) :
  match build_body Reading (map (fun r => RD (extract_reading set_list r)) rs) with
  | BReading _ comprehension_weaknesses _ _ =>
      let n := length (filter (fun r => false ∈ rs_responses_correct r) rs) in
      comprehension_weaknesses
      = if decide (n = 0) then [] else [mkEntry "inference" n None (Some (priority_of 3 n))]
  | _ => False
  end.
Proof.
  cbv beta iota delta [build_body reading_body]. rewrite omap_reading_extract.
  rewrite !map_map. cbv zeta. rewrite (concat_set_list_reading set_list Hset).
  apply aggregate_replicate.
Qed.

(** *** Conversation ([extract_conversation_session_insights]) *)

(** A JSON value; a dict is the list of its key/value pairs. *)
#[warnings="-register-all"] Inductive Json :=
  | JDict (kvs : list (string * Json))
  | JList (xs : list Json)
  | JStr (s : string)
  | JNum (q : Q)
  | JBool (b : bool)
  | JNull.

(** [d.get(k)] on the pairs of a dict. *)
Fixpoint json_get (k : string) (kvs : list (string * Json)) : option Json :=
  match kvs with
  | [] => None
  | (k', v) :: kvs' => if bool_decide (k = k') then Some v else json_get k kvs'
  end.

(** [l.append(x)]: only a list has [append] ([None]: AttributeError). *)
Definition py_append (l : Json) (x : Json) : option Json :=
  match l with JList xs => Some (JList (app xs [x])) | _ => None end.

(** [v[:15]]: lists and strings slice, other values raise TypeError. *)
Definition slice15 (v : Json) : option Json :=
  match v with
  | JList xs => Some (JList (firstn 15 xs))
  | JStr s => Some (JStr (String.substring 0 15 s))
  | _ => None
  end.

(** [len(s.split())] on ASCII text: the number of maximal runs of
    non-space characters. *)
Fixpoint split_count (in_word : bool) (s : string) : nat :=
  match s with
  | EmptyString => 0
  | String c s' =>
      if is_space c then split_count false s'
      else (if in_word then 0 else 1) + split_count true s'
  end.

Definition split_length (s : string) : nat := split_count false s.

(** An element of [session_data['messages']] (a dict): the value of
    "role" when it is a string, and of "content" ([None]: key absent). *)
Record Message := mkMessage {
  msg_role : option string;
  msg_content : option string
}.

(** [session_data.get('analytics', {})]: the numeric values of its keys. *)
Record Analytics := mkAnalytics {
  an_total_words_spoken : option Q;
  an_total_exchanges : option Q;
  an_average_words_per_message : option Q
}.

Record ConversationSessionData := mkConversationSessionData {
  cs_messages : list Message;
  cs_analytics : Analytics;
  cs_topic : string;
  cs_pronunciation_data : list (string * Json)
}.

(** The API request made by [OpenAIClient.generate_content]: no key
    configured, an exception (its text), or the reply's message text. *)
Inductive ApiResult :=
  | ApiResNoKey
  | ApiResRaise (details : string)
  | ApiResReply (content : string).

(** The [try:] block of the analysis: the import or the client
    constructor raises, or [generate_content] returns. *)
Inductive AnalysisCall :=
  | AnRaises
  | AnReturns (a : ApiResult).

(** The four lists the [try:] block assigns. *)
Record ConvLists := mkConvLists {
  cv_grammar_errors : Json;
  cv_vocabulary_gaps : Json;
  cv_fluency_issues : Json;
  cv_topic_struggles : Json
}.

Definition empty_conv_lists : ConvLists := mkConvLists (JList []) (JList []) (JList []) (JList []).

(** The new [ConversationMemoryInsight] row. *)
Record ConversationInsightRow := mkConversationInsightRow {
  ci_topic : string;
  ci_grammar_errors : Json;
  ci_vocabulary_gaps : Json;
  ci_fluency_issues : Json;
  ci_topic_struggles : Json;
  ci_mispronounced_words : Json;
  ci_phoneme_errors : Json;
  ci_pronunciation_scores : Json;
  ci_total_messages : Q;
  ci_total_words : Q;
  ci_avg_words_per_message : Q
}.

Section ConversationExtraction.

(** [json.loads]: the value a text denotes, or [None] for JSONDecodeError. *)
Variable json_loads : string -> option Json.

(** [OpenAIClient.generate_content] with its full return value. *)
Definition client_generate_content (a : ApiResult) : Json :=
  match a with
  | ApiResNoKey => JDict [("error", JStr "OpenAI API key not configured")]
  | ApiResRaise details =>
      JDict [("error", JStr "Failed to generate content"); ("details", JStr details)]
  | ApiResReply content =>
      match json_loads content with
      | Some v => v
      | None => JDict [("content", JStr content)]
      end
  end.

(** [analysis_data] from [ai_response] ([None]: [json.loads] raises;
    [json.loads] of a value that is not a string raises TypeError). *)
Definition analysis_data_of (ai_response : Json) : option Json :=
  match ai_response with
  | JDict kvs =>
      match json_get "content" kvs with
      | Some (JStr c) => json_loads c
      | Some _ => None
      | None => Some (JDict [])
      end
  | JStr s => json_loads s
  | _ => Some (JDict [])
  end.

(** The [try:] block from the parse on: the lists as assigned when it ends,
    and whether it ended with an exception. [.get] on an [analysis_data]
    that is not a dict raises AttributeError. *)
Definition analysis_try (call : AnalysisCall) : ConvLists * bool :=
  let init := empty_conv_lists in
  match call with
  | AnRaises => (init, true)
  | AnReturns a =>
      match analysis_data_of (client_generate_content a) with
      | Some (JDict kvs) =>
          match slice15 (default (JList []) (json_get "grammar_errors" kvs)) with
          | None => (init, true)
          | Some grammar_errors =>
              match slice15 (default (JList []) (json_get "vocabulary_gaps" kvs)) with
              | None => (mkConvLists grammar_errors (JList []) (JList []) (JList []), true)
              | Some vocabulary_gaps =>
                  (mkConvLists grammar_errors vocabulary_gaps
                     (default (JList []) (json_get "fluency_issues" kvs))
                     (default (JList []) (json_get "topic_struggles" kvs)), false)
              end
          end
      | _ => (init, true)
      end
  end.

(** [if len(student_messages) >= 3: try: ... except Exception: <fallback>]. *)
Definition conversation_lists (call : AnalysisCall) (student_messages : list Message)
    : option ConvLists :=
  if bool_decide (3 <= length student_messages) then
    let '(ls, raised) := analysis_try call in
    if raised then
      let all_text := String.concat " " (map (fun m => default "" (msg_content m)) student_messages) in
      if bool_decide (split_length all_text < 50) then
        fluency_issues ← py_append (cv_fluency_issues ls) (JStr "short_responses");
        Some (mkConvLists (cv_grammar_errors ls) (cv_vocabulary_gaps ls) fluency_issues
                (cv_topic_struggles ls))
      else Some ls
    else Some ls
  else Some empty_conv_lists.

(** [extract_conversation_session_insights] up to [db.session.add]
    ([None]: an exception escapes). *)
Definition extract_conversation (call : AnalysisCall) (d : ConversationSessionData)
    : option ConversationInsightRow :=
  let student_messages := filter (fun m => msg_role m = Some "user") (cs_messages d) in
  let pd := cs_pronunciation_data d in
  let '(mispronounced_words, phoneme_errors, pronunciation_scores) :=
    match pd with
    | [] => (JList [], JList [], JDict [])
    | _ => (default (JList []) (json_get "mispronounced_words" pd),
            default (JList []) (json_get "phoneme_errors" pd),
            default (JDict []) (json_get "scores" pd))
    end in
  ls ← conversation_lists call student_messages;
  let an := cs_analytics d in
  let avg_words_per_message := default 0%Q (an_average_words_per_message an) in
  fluency_issues ←
    (if negb (Qle_bool 5 avg_words_per_message)
     then py_append (cv_fluency_issues ls) (JStr "very_short_responses")
     else Some (cv_fluency_issues ls));
  Some (mkConversationInsightRow (cs_topic d) (cv_grammar_errors ls) (cv_vocabulary_gaps ls)
          fluency_issues (cv_topic_struggles ls) mispronounced_words phoneme_errors
          pronunciation_scores (default 0%Q (an_total_exchanges an))
          (default 0%Q (an_total_words_spoken an)) avg_words_per_message).

End ConversationExtraction.

(** Some list of the analysis is not the empty list it starts from. *)
Definition analysis_lists_used (ls : ConvLists) : Prop :=
  cv_grammar_errors ls <> JList [] \/ cv_vocabulary_gaps ls <> JList [] \/
  cv_topic_struggles ls <> JList [].

Lemma conversation_lists_source (json_loads : string -> option Json) (call : AnalysisCall)
    (msgs : list Message) (ls : ConvLists) :
  conversation_lists json_loads call msgs = Some ls ->
  analysis_lists_used ls -> analysis_lists_used (analysis_try json_loads call).1.
Proof.
  unfold conversation_lists.
  destruct (bool_decide (3 <= length msgs)).
  - destruct (analysis_try json_loads call) as [ls0 raised]. simpl.
    destruct raised; [|congruence].
    destruct (bool_decide _); [|congruence].
    destruct (py_append (cv_fluency_issues ls0) _); simpl; [|discriminate].
    intros Hs. inversion Hs; subst. unfold analysis_lists_used. simpl. done.
  - intros Hs. inversion Hs; subst. unfold analysis_lists_used. simpl. tauto.
Qed.

Lemma analysis_try_source (json_loads : string -> option Json) (a : ApiResult) :
  analysis_lists_used (analysis_try json_loads (AnReturns a)).1 ->
  exists content, a = ApiResReply content /\
    ((exists s, json_loads content = Some (JStr s)) \/
     (exists kvs c, json_loads content = Some (JDict kvs) /\ json_get "content" kvs = Some (JStr c))).
Proof.
  unfold analysis_lists_used.
  destruct a as [|details|content]; simpl; [tauto|tauto|].
  destruct (json_loads content) as [v|] eqn:Hj.
  - destruct v as [kvs|xs|s|q|b|]; simpl; try tauto.
    + destruct (json_get "content" kvs) as [c|] eqn:Hc; simpl; [|tauto].
      destruct c as [?|?|c|?|?|]; simpl; try tauto.
      intros _. exists content. split; [done|]. right. by exists kvs, c.
    + intros _. exists content. split; [done|]. left. by exists s.
  - simpl. rewrite Hj. simpl. tauto.
Qed.

Lemma extract_conversation_lists (json_loads : string -> option Json) (call : AnalysisCall)
    (d : ConversationSessionData) (ci : ConversationInsightRow) :
  extract_conversation json_loads call d = Some ci ->
  exists ls, conversation_lists json_loads call
               (filter (fun m => msg_role m = Some "user") (cs_messages d)) = Some ls /\
    ci_grammar_errors ci = cv_grammar_errors ls /\ ci_vocabulary_gaps ci = cv_vocabulary_gaps ls /\
    ci_topic_struggles ci = cv_topic_struggles ls /\
    (ci_fluency_issues ci = cv_fluency_issues ls \/
     py_append (cv_fluency_issues ls) (JStr "very_short_responses") = Some (ci_fluency_issues ci)).
Proof.
  unfold extract_conversation.
  destruct (match cs_pronunciation_data d with | [] => _ | _ => _ end) as [[mw pe] ps].
  destruct (conversation_lists _ _ _) as [ls|]; simpl; [|discriminate].
  destruct (negb _); simpl.
  - destruct (py_append _ _) as [f|] eqn:Hf; simpl; [|discriminate].
    intros Hs. inversion Hs; subst. exists ls. simpl. repeat split; auto.
  - intros Hs. inversion Hs; subst. exists ls. simpl. repeat split; auto.
Qed.

(** Extra. When [generate_content] returns a dict without a "content" key
    (the decoded reply in the requested JSON format, or the client's error
    dict when no API key is set or the request raises), the new
    Conversation insight has empty grammar errors, vocabulary gaps and
    topic struggles, and its fluency issues are at most
    "very_short_responses": no analysis and no "short_responses" fallback. *)
Theorem conversation_dict_reply_discarded (json_loads : string -> option Json) (a : ApiResult)
    (kvs : list (string * Json)) (d : ConversationSessionData)
    (Hr : client_generate_content json_loads a = JDict kvs)
    (Hc : json_get "content" kvs = None) :
  exists ci, extract_conversation json_loads (AnReturns a) d = Some ci /\
    ci_grammar_errors ci = JList [] /\ ci_vocabulary_gaps ci = JList [] /\
    ci_topic_struggles ci = JList [] /\
    (ci_fluency_issues ci = JList [] \/ ci_fluency_issues ci = JList [JStr "very_short_responses"]).
Proof.
  assert (Hl : forall msgs, conversation_lists json_loads (AnReturns a) msgs = Some empty_conv_lists).
  { intros msgs. unfold conversation_lists, analysis_try. rewrite Hr.
    unfold analysis_data_of. rewrite Hc. simpl. by destruct (bool_decide _). }
  unfold extract_conversation.
  destruct (match cs_pronunciation_data d with | [] => _ | _ => _ end) as [[mw pe] ps].
  rewrite Hl. simpl.
  destruct (negb _); simpl; eexists; (split; [reflexivity|]); simpl; auto 10.
Qed.

(** Extra. A reply whose text [json.loads] rejects gives the same
    Conversation insight as a call that raises: the client wraps it as
    [{"content": text}], the extraction decodes that text again and falls
    into its [except] branch. *)
Theorem conversation_non_json_reply_as_failure (json_loads : string -> option Json)
    (content : string) (d : ConversationSessionData) (Hj : json_loads content = None) :
  extract_conversation json_loads (AnReturns (ApiResReply content)) d
  = extract_conversation json_loads AnRaises d.
Proof.
  assert (Ht : analysis_try json_loads (AnReturns (ApiResReply content))
               = analysis_try json_loads AnRaises).
  { unfold analysis_try, client_generate_content. rewrite Hj.
    unfold analysis_data_of. simpl. rewrite Hj. reflexivity. }
  unfold extract_conversation, conversation_lists. rewrite Ht. reflexivity.
Qed.

(** Extra. If the new Conversation insight has a non-empty grammar error,
    vocabulary gap or topic list, the API returned a reply whose text
    decodes to a JSON string, or to a dict with a string "content" key. *)
Theorem conversation_analysis_needs_wrapped_reply (json_loads : string -> option Json)
    (a : ApiResult) (d : ConversationSessionData) (ci : ConversationInsightRow)
    (Hx : extract_conversation json_loads (AnReturns a) d = Some ci)
    (Hu : ci_grammar_errors ci <> JList [] \/ ci_vocabulary_gaps ci <> JList [] \/
          ci_topic_struggles ci <> JList []) :
  exists content, a = ApiResReply content /\
    ((exists s, json_loads content = Some (JStr s)) \/
     (exists kvs c, json_loads content = Some (JDict kvs) /\ json_get "content" kvs = Some (JStr c))).
Proof.
  destruct (extract_conversation_lists _ _ _ _ Hx) as (ls & Hl & Hg & Hv & Ht & _).
  apply analysis_try_source. apply (conversation_lists_source _ _ _ _ Hl).
  unfold analysis_lists_used. rewrite <- Hg, <- Hv, <- Ht. exact Hu.
Qed.

(** A decoder that knows two reply texts: ["{analysis}"], an analysis in
    the requested format, and ["wrapped"], a JSON string holding it. *)
Definition demo_analysis_fields : list (string * Json) :=
  [("grammar_errors", JList [JDict [("type", JStr "article"); ("example", JStr "I am student")]])].

Definition demo_json_loads (s : string) : option Json :=
  if bool_decide (s = "{analysis}") then Some (JDict demo_analysis_fields)
  else if bool_decide (s = "wrapped") then Some (JStr "{analysis}")
  else None.

Definition demo_conversation : ConversationSessionData :=
  mkConversationSessionData
    [mkMessage (Some "user") (Some "I go school yesterday");
     mkMessage (Some "assistant") (Some "Where did you go?");
     mkMessage (Some "user") (Some "I am student");
     mkMessage (Some "user") (Some "He like football")]
    (mkAnalytics (Some 11%Q) (Some 4%Q) (Some (11 # 4)))
    "daily_life" [].

Definition demo_wrapped_row : ConversationInsightRow :=
  match extract_conversation demo_json_loads (AnReturns (ApiResReply "wrapped")) demo_conversation with
  | Some ci => ci
  | None => mkConversationInsightRow "" JNull JNull JNull JNull JNull JNull JNull 0 0 0
  end.

Lemma conversation_dict_reply_discarded_witness :
  client_generate_content demo_json_loads (ApiResReply "{analysis}") = JDict demo_analysis_fields /\
  exists ci, extract_conversation demo_json_loads (AnReturns (ApiResReply "{analysis}"))
               demo_conversation = Some ci /\
    ci_grammar_errors ci = JList [] /\ ci_vocabulary_gaps ci = JList [] /\
    ci_topic_struggles ci = JList [] /\
    (ci_fluency_issues ci = JList [] \/ ci_fluency_issues ci = JList [JStr "very_short_responses"]).
Proof.
  split; [vm_compute; reflexivity|].
  apply (conversation_dict_reply_discarded demo_json_loads (ApiResReply "{analysis}")
           demo_analysis_fields demo_conversation); vm_compute; reflexivity.
Defined.

Lemma conversation_non_json_reply_as_failure_witness :
  demo_json_loads "Sure! Here is the analysis." = None /\
  extract_conversation demo_json_loads (AnReturns (ApiResReply "Sure! Here is the analysis."))
    demo_conversation
  = extract_conversation demo_json_loads AnRaises demo_conversation.
Proof.
  split; [vm_compute; reflexivity|].
  apply conversation_non_json_reply_as_failure. vm_compute. reflexivity.
Defined.

Lemma conversation_analysis_needs_wrapped_reply_witness :
  ci_grammar_errors demo_wrapped_row <> JList [] /\
  exists content, ApiResReply "wrapped" = ApiResReply content /\
    ((exists s, demo_json_loads content = Some (JStr s)) \/
     (exists kvs c, demo_json_loads content = Some (JDict kvs) /\
                    json_get "content" kvs = Some (JStr c))).
Proof.
  split; [vm_compute; discriminate|].
  apply (conversation_analysis_needs_wrapped_reply demo_json_loads (ApiResReply "wrapped")
           demo_conversation demo_wrapped_row).
  - vm_compute. reflexivity.
  - left. vm_compute. discriminate.
Defined.

(** *** Writing ([extract_writing_session_insights], vocabulary part) *)

(** Python truth value of a JSON value. *)
Definition py_truthy (v : Json) : bool :=
  match v with
  | JDict kvs => bool_decide (kvs <> [])
  | JList xs => bool_decide (xs <> [])
  | JStr s => bool_decide (s <> "")
  | JNum q => negb (Qeq_bool q 0)
  | JBool b => b
  | JNull => false
  end.

(** [for x in v]: the items of a list, the one-character strings of a
    string, the keys of a dict; other values raise TypeError. *)
Definition py_iter (v : Json) : option (list Json) :=
  match v with
  | JList xs => Some xs
  | JStr s => Some (map (fun c => JStr (String c EmptyString)) (String.list_ascii_of_string s))
  | JDict kvs => Some (map (fun kv => JStr kv.1) kvs)
  | _ => None
  end.

(** The "issue" values of [vocabulary_issues[:15]] ([None]: the block
    raises). [.get] on a truthy [vocab_assessment] that is not a dict
    raises AttributeError. *)
Definition writing_vocabulary_issues (analysis_data : list (string * Json)) : option (list string) :=
  let vocab_assessment := default (JDict []) (json_get "vocabulary_assessment" analysis_data) in
  if py_truthy vocab_assessment then
    match vocab_assessment with
    | JDict va =>
        let complexity_level := default (JStr "intermediate") (json_get "complexity_level" va) in
        let suggestions := default (JList []) (json_get "suggestions" va) in
        let is_basic := match complexity_level with JStr c => bool_decide (c = "basic") | _ => false end in
        let l1 := if is_basic then ["limited_vocabulary"] else [] in
        xs ← py_iter suggestions;
        let l2 := fold_left (fun acc suggestion =>
                    match suggestion with
                    | JStr _ => app acc ["vocabulary_suggestion"]
                    | _ => acc
                    end) xs l1 in
        Some (firstn 15 l2)
    | _ => None
    end
  else Some [].

Definition vocabulary_issue_labels : list string := ["limited_vocabulary"; "vocabulary_suggestion"].

Lemma writing_vocabulary_issues_labels (analysis_data : list (string * Json)) (l : list string) :
  writing_vocabulary_issues analysis_data = Some l -> Forall (fun k => k ∈ vocabulary_issue_labels) l.
Proof.
  unfold writing_vocabulary_issues.
  destruct (py_truthy _); [|intros Hs; inversion Hs; constructor].
  destruct (default (JDict []) _) as [va| | | | |]; try discriminate.
  destruct (py_iter _) as [xs|]; simpl; [|discriminate].
  intros Hs. inversion Hs; subst. apply Forall_take.
  apply fold_left_inv.
  - case_match; repeat constructor; unfold vocabulary_issue_labels; set_solver.
  - intros acc suggestion H. destruct suggestion; try done.
    apply Forall_app. split; [done|]. constructor; [|constructor].
    unfold vocabulary_issue_labels. set_solver.
Qed.

Lemma aggregate_keys (P : string -> Prop) (skip_empty : bool) (min_freq : nat)
    (high_at : option nat) (scored : bool) (xs : list Obs) :
  Forall (fun o => P (o_key o)) xs ->
  Forall (fun e => P (e_key e)) (aggregate o_key skip_empty min_freq high_at scored xs).
Proof.
  intros H. apply Forall_forall. intros e He.
  apply elem_of_aggregate in He as (k & _ & Hne & _ & ->). simpl.
  destruct (filter (fun o => o_key o = k) xs) as [|o l] eqn:Hf; [done|].
  assert (Ho : o ∈ filter (fun o => o_key o = k) xs) by (rewrite Hf; set_solver).
  apply list_elem_of_filter in Ho as [<- Ho].
  exact (proj1 (Forall_forall _ _) H o Ho).
Qed.

Lemma omap_writing (os : list WritingObs) : omap writing_obs (map WD os) = os.
Proof. induction os as [|o os IH]; [done|]. simpl. f_equal. exact IH. Qed.

(** Extra. The vocabulary weaknesses of the Writing memory never name a
    word: their keys are the two labels the extraction writes. *)
Theorem writing_vocabulary_weaknesses_unnamed (os : list WritingObs)
    (Hv : Forall (fun o => exists analysis_data,
             writing_vocabulary_issues analysis_data = Some (w_vocabulary_issues o)) os) :
  match build_body Writing (map WD os) with
  | BWriting _ _ vocabulary_weaknesses _ _ =>
      Forall (fun e => e_key e ∈ vocabulary_issue_labels) vocabulary_weaknesses
  | _ => False
  end.
Proof.
  cbv beta iota delta [build_body writing_body]. rewrite omap_writing.
  unfold top10. apply Forall_take, (aggregate_keys (fun k => k ∈ vocabulary_issue_labels)).
  unfold obs_of_strings. apply Forall_map. simpl.
  apply Forall_concat, Forall_map. eapply Forall_impl; [exact Hv|].
  intros o [ad Had]. exact (writing_vocabulary_issues_labels ad _ Had).
Qed.

Definition demo_vocabulary_analysis (w : string) : list (string * Json) :=
  [("vocabulary_assessment",
    JDict [("complexity_level", JStr "basic"); ("suggestions", JList [JStr w])])].

Lemma writing_vocabulary_weaknesses_unnamed_witness :
  writing_vocabulary_issues (demo_vocabulary_analysis "utilize")
    = Some ["limited_vocabulary"; "vocabulary_suggestion"] /\
  match build_body Writing (map WD [mkWritingObs [] [] ["limited_vocabulary"; "vocabulary_suggestion"] [] 0;
                                    mkWritingObs [] [] ["limited_vocabulary"; "vocabulary_suggestion"] [] 0]) with
  | BWriting _ _ vocabulary_weaknesses _ _ =>
      Forall (fun e => e_key e ∈ vocabulary_issue_labels) vocabulary_weaknesses
  | _ => False
  end.
Proof.
  split; [vm_compute; reflexivity|].
  apply writing_vocabulary_weaknesses_unnamed.
  constructor; [exists (demo_vocabulary_analysis "utilize"); vm_compute; reflexivity|].
  constructor; [exists (demo_vocabulary_analysis "leverage"); vm_compute; reflexivity|].
  constructor.
Defined.

Definition demo_listening_sessions : list ListeningSessionRow :=
  [mkListeningSessionRow
     [mkListeningResult false "What is the talk primarily about?";
      mkListeningResult false "Which detail does the speaker give?";
      mkListeningResult true "Where does the story happen?"] (Some 60%Z);
   mkListeningSessionRow
     [mkListeningResult false "What is the main idea?";
      mkListeningResult false "What is the main idea of the second part?"] None].

Definition demo_reading_sessions : list ReadingSessionRow :=
  [mkReadingSessionRow [mkVocabInteraction "ubiquitous" (Some 8%Z) (Some 1%Z)] [false; false; true] (Some 90%Z) (Some 100%Z);
   mkReadingSessionRow [] [true] None None;
   mkReadingSessionRow [mkVocabInteraction "ubiquitous" None None] [false] (Some 120%Z) (Some 70%Z)].

Lemma listening_weaknesses_count_sessions_witness :
  build_body Listening (map (fun r => LD (extract_listening remove_dups r)) demo_listening_sessions)
  = BListening [mkEntry "main_idea" 2 None (Some "medium"); mkEntry "detail" 1 None (Some "medium")] false /\
  match build_body Listening (map (fun r => LD (extract_listening remove_dups r)) demo_listening_sessions) with
  | BListening comprehension_weaknesses _ =>
      forall e, e ∈ comprehension_weaknesses <->
        exists k, let n := length (filter (fun r => k ∈ listening_question_types r) demo_listening_sessions) in
          k ∈ question_labels /\ 0 < n /\ e = mkEntry k n None (Some (priority_of 3 n))
  | _ => False
  end.
Proof.
  split; [vm_compute; reflexivity|].
  apply listening_weaknesses_count_sessions. intros xs. reflexivity.
Defined.

Lemma reading_weaknesses_only_inference_witness :
  build_body Reading (map (fun r => RD (extract_reading remove_dups r)) demo_reading_sessions)
  = BReading [mkEntry "ubiquitous" 2 None (Some "medium")] [mkEntry "inference" 2 None (Some "medium")]
      false true /\
  match build_body Reading (map (fun r => RD (extract_reading remove_dups r)) demo_reading_sessions) with
  | BReading _ comprehension_weaknesses _ _ =>
      let n := length (filter (fun r => false ∈ rs_responses_correct r) demo_reading_sessions) in
      comprehension_weaknesses
      = if decide (n = 0) then [] else [mkEntry "inference" n None (Some (priority_of 3 n))]
  | _ => False
  end.
Proof.
  split; [vm_compute; reflexivity|].
  apply reading_weaknesses_only_inference. intros xs. reflexivity.
Defined.
